(** * Tone.js [Source]: scheduling of start/stop against two clocks

    A shallow embedding of [src/Tone/source/Source.ts] and of the parts of
    [src/Tone/core/context/ToneWithContext.ts] it calls ([now], [sampleTime],
    [toSeconds]).

    Numbers.  JavaScript numbers that carry seconds are embedded as
    rationals ([Q]): comparisons are [Qle_bool]/[Qeq_bool], [Math.max] is
    written out, arithmetic is exact.  Two rationals that denote the same
    number may differ as terms, so statements about computed times use [==]
    where a value is the result of arithmetic.

    Effects.  The three primitives of the concrete unit ([_start], [_stop],
    [restart]) are abstract in the source; every invocation is appended to a
    trace.  The Transport and the rendering clock are shared objects reached
    through [this.context]; the methods therefore transform a [World] made of
    the instance, its context and the trace.

    Collaborators.  StateTimeline, Transport and TimeClass are not among
    the sources.  The Timeline and the Transport are modelled at the
    interface the specification gives them; the conversion of times that
    are not plain numbers and [transport.getSecondsAtTime] are parameters. *)

From Stdlib Require Import List Bool Arith String QArith Lqa Lia.
Import ListNotations.

Local Open Scope Q_scope.

(** ** Units.ts: [Time = string | Seconds | TimeObject] *)

Inductive Time : Type :=
| TNumber (n : Q)
| TString (s : string)
| TObject (o : list (string * Q)).

(** JavaScript truthiness of a value of type [Time | undefined], as tested by
    [duration ? ... : ...]. *)
Definition truthy (t : option Time) : bool :=
  match t with
  | None => false
  | Some (TNumber n) => negb (Qeq_bool n 0)
  | Some (TString s) => negb (String.eqb s "")
  | Some (TObject _) => true
  end.

(** Truthiness of a value of type [Seconds | undefined], as tested by
    [if (stateEvent.duration)]. *)
Definition truthyNumber (n : option Q) : bool :=
  match n with
  | None => false
  | Some q => negb (Qeq_bool q 0)
  end.

Definition isUndef {A : Type} (x : option A) : bool :=
  match x with None => true | Some _ => false end.

(** [defaultArg(given, fallback)] of core/util/Defaults. *)
Definition defaultArg {A : Type} (given : option A) (fallback : A) : A :=
  match given with None => fallback | Some a => a end.

(** [Math.max] on two numbers. *)
Definition Math_max (a b : Q) : Q := if Qle_bool a b then b else a.

(** ** The Timeline *)

Inductive BasicPlaybackState : Type := started | stopped.

Definition BasicPlaybackState_eqb (a b : BasicPlaybackState) : bool :=
  match a, b with
  | started, started | stopped, stopped => true
  | _, _ => false
  end.

Module StateTimeline.

(** The events kept by [Source._state]: the type argument of
    [StateTimeline<...>] in Source.ts plus [state] and [time]. *)
Record StateEvent : Type := mkEvent {
  time : Q;
  state : BasicPlaybackState;
  duration : option Q;
  offset : option Q;
  implicitEnd : option bool
}.

Record t : Type := mkTimeline {
  _timeline : list StateEvent;
  memory : nat
}.

(** Modelled from the spec: core/util/StateTimeline.ts is not among the
    sources.  [new StateTimeline("stopped")] followed by the assignment
    to [memory] gives an empty ledger with that retention bound. *)
Definition create (mem : nat) : t := mkTimeline [] mem.

(** Modelled from the spec: [get(time)], missing with StateTimeline.ts:
    the latest event with [time' <= time], if any.  Events are kept in
    ascending order of time, so the latest is the last one in the list
    that is not after [time]. *)
Fixpoint get_events (l : list StateEvent) (tm : Q) : option StateEvent :=
  match l with
  | [] => None
  | e :: rest =>
      match get_events rest tm with
      | Some e' => Some e'
      | None => if Qle_bool (time e) tm then Some e else None
      end
  end.

Definition get (tl : t) (tm : Q) : option StateEvent :=
  get_events (_timeline tl) tm.

(** Modelled from the spec: [getValueAtTime(time)], missing with
    StateTimeline.ts: the state of the event found by [get], or the
    default [stopped] where there is none. *)
Definition getValueAtTime (tl : t) (tm : Q) : BasicPlaybackState :=
  match get tl tm with
  | Some e => state e
  | None => stopped
  end.

(** Modelled from the spec: insertion keeps the list sorted by time and
    an insert at the exact time of an existing event replaces it. *)
Fixpoint insert (e : StateEvent) (l : list StateEvent) : list StateEvent :=
  match l with
  | [] => [e]
  | x :: rest =>
      if Qeq_bool (time x) (time e) then e :: rest
      else if Qle_bool (time x) (time e) then x :: insert e rest
      else e :: x :: rest
  end.

(** Modelled from the spec: the retention bound; while more than [memory]
    events are held the oldest ones are dropped. *)
Definition evict (mem : nat) (l : list StateEvent) : list StateEvent :=
  skipn (List.length l - mem)%nat l.

(** Modelled from the spec: [setStateAtTime(state, time)], missing with
    StateTimeline.ts. *)
Definition setStateAtTime (s : BasicPlaybackState) (tm : Q) (tl : t) : t :=
  mkTimeline
    (evict (memory tl) (insert (mkEvent tm s None None None) (_timeline tl)))
    (memory tl).

(** Modelled from the spec: [cancel(time)], missing with StateTimeline.ts:
    removes every event with [time' >= time] and no other. *)
Definition cancel (tm : Q) (tl : t) : t :=
  mkTimeline
    (filter (fun e => negb (Qle_bool tm (time e))) (_timeline tl))
    (memory tl).

(** Modelled from the spec: [dispose()] releases all events. *)
Definition dispose (tl : t) : t :=
  mkTimeline [] (memory tl).

(** The object returned by [get] is the one stored in the ledger: a write
    to one of its fields is seen by later lookups.  [update_found f l tm]
    applies [f] in place to the event [get_events l tm] returns. *)
Fixpoint update_found (f : StateEvent -> StateEvent)
    (l : list StateEvent) (tm : Q) : list StateEvent :=
  match l with
  | [] => []
  | e :: rest =>
      match get_events rest tm with
      | Some _ => e :: update_found f rest tm
      | None => if Qle_bool (time e) tm then f e :: rest else e :: rest
      end
  end.

Definition update (f : StateEvent -> StateEvent) (tm : Q) (tl : t) : t :=
  mkTimeline (update_found f (_timeline tl) tm) (memory tl).

Definition set_offset_duration (o d : option Q) (e : StateEvent)
  : StateEvent :=
  mkEvent (time e) (state e) d o (implicitEnd e).

End StateTimeline.

(** ** Function values

    [Transport.off] and the tracked identifiers rely on the identity of the
    function objects handed to the Transport.  The two bridge closures that
    [sync] creates are told apart by the number of the allocation that made
    them; [noOp] is the shared placeholder of core/util/Interface; [OtherFn]
    stands for functions that some other party registered. *)

Inductive Fn : Type :=
| noOp
| SyncedStartFn (closure : nat)
| SyncedStopFn (closure : nat)
| OtherFn (n : nat).

Definition Fn_eqb (f g : Fn) : bool :=
  match f, g with
  | noOp, noOp => true
  | SyncedStartFn a, SyncedStartFn b => Nat.eqb a b
  | SyncedStopFn a, SyncedStopFn b => Nat.eqb a b
  | OtherFn a, OtherFn b => Nat.eqb a b
  | _, _ => false
  end.

(** The callbacks [start] and [stop] hand to [transport.schedule]:
    [t => this._start(t, offset, duration)] and [this._stop.bind(this)]. *)
Inductive Callback : Type :=
| StartCallback (offset duration : option Time)
| StopCallback
| OtherCallback (n : nat).

(** ** The Transport, at the interface Source uses *)

Module Transport.

Inductive PlaybackState : Type := Started | Stopped | Paused.

Definition PlaybackState_eqb (a b : PlaybackState) : bool :=
  match a, b with
  | Started, Started | Stopped, Stopped | Paused, Paused => true
  | _, _ => false
  end.

Record TransportEvent : Type := mkTransportEvent {
  id : nat;
  callback : Callback;
  at_time : Q
}.

Record t : Type := mkTransport {
  seconds : Q;
  state : PlaybackState;
  _events : list (string * Fn);
  _timeline : list TransportEvent;
  _eventID : nat
}.

(** Modelled from the spec: core/clock/Transport.ts is not among the
    sources.  [schedule(callback, time)] registers a deferred callback and
    returns a new identifier. *)
Definition schedule (cb : Callback) (tm : Q) (T : t) : nat * t :=
  (_eventID T,
   mkTransport (seconds T) (state T) (_events T)
     (_timeline T ++ [mkTransportEvent (_eventID T) cb tm])
     (S (_eventID T))).

(** Modelled from the spec: [clear(identifier)] removes the callback
    registered under that identifier. *)
Definition clear (i : nat) (T : t) : t :=
  mkTransport (seconds T) (state T) (_events T)
    (filter (fun e => negb (Nat.eqb (id e) i)) (_timeline T))
    (_eventID T).

(** Modelled from the spec: [on(eventName, callback)] adds a listener. *)
Definition on (event : string) (f : Fn) (T : t) : t :=
  mkTransport (seconds T) (state T) (_events T ++ [(event, f)])
    (_timeline T) (_eventID T).

(** Modelled from the spec: [off(eventName, callback)] removes that
    listener from that event. *)
Definition off (event : string) (f : Fn) (T : t) : t :=
  mkTransport (seconds T) (state T)
    (filter (fun p => negb (String.eqb (fst p) event && Fn_eqb (snd p) f))
       (_events T))
    (_timeline T) (_eventID T).

Definition listeners (event : string) (T : t) : list Fn :=
  map snd (filter (fun p => String.eqb (fst p) event) (_events T)).

Definition registered (i : nat) (T : t) : bool :=
  existsb (fun e => Nat.eqb (id e) i) (_timeline T).

End Transport.

(** ** The context: rendering clock and Transport *)

Record Context : Type := mkContext {
  currentTime : Q;
  lookAhead : Q;
  sampleRate : Q;
  transport : Transport.t
}.

(** ToneWithContext.now *)
Definition now (c : Context) : Q := currentTime c + lookAhead c.


(** ToneWithContext.sampleTime *)
Definition sampleTime (c : Context) : Q := 1 / sampleRate c.


(** ** The Source instance *)

Record Volume : Type := mkVolume {
  Volume_mute : bool;
  Volume_disposed : bool
}.

Record Source : Type := mkSource {
  _volume : Volume;
  onstop : Fn;
  _state : StateTimeline.t;
  _synced : bool;
  _scheduled : list nat;
  _syncedStart : Fn;
  _syncedStop : Fn
}.

(** Invocations of the abstract primitives of the concrete unit. *)
Inductive Invocation : Type :=
| call_start (time : Q) (offset duration : option Time)
| call_stop (time : Q)
| call_restart (time : Q) (offset duration : option Time).

Record World : Type := mkWorld {
  this : Source;
  context : Context;
  invoked : list Invocation;
  closures : nat
}.

(** Field writes. *)
Definition set_state (tl : StateTimeline.t) (s : Source) : Source :=
  mkSource (_volume s) (onstop s) tl (_synced s) (_scheduled s)
    (_syncedStart s) (_syncedStop s).

Definition set_synced (b : bool) (s : Source) : Source :=
  mkSource (_volume s) (onstop s) (_state s) b (_scheduled s)
    (_syncedStart s) (_syncedStop s).

Definition set_scheduled (l : list nat) (s : Source) : Source :=
  mkSource (_volume s) (onstop s) (_state s) (_synced s) l
    (_syncedStart s) (_syncedStop s).

Definition set_bridges (f g : Fn) (s : Source) : Source :=
  mkSource (_volume s) (onstop s) (_state s) (_synced s) (_scheduled s) f g.

Definition set_onstop (f : Fn) (s : Source) : Source :=
  mkSource (_volume s) f (_state s) (_synced s) (_scheduled s)
    (_syncedStart s) (_syncedStop s).

Definition set_volume (v : Volume) (s : Source) : Source :=
  mkSource v (onstop s) (_state s) (_synced s) (_scheduled s)
    (_syncedStart s) (_syncedStop s).

Definition set_transport (T : Transport.t) (c : Context) : Context :=
  mkContext (currentTime c) (lookAhead c) (sampleRate c) T.

Definition with_this (f : Source -> Source) (w : World) : World :=
  mkWorld (f (this w)) (context w) (invoked w) (closures w).

Definition with_transport (f : Transport.t -> Transport.t) (w : World)
  : World :=
  mkWorld (this w) (set_transport (f (transport (context w))) (context w))
    (invoked w) (closures w).

Definition with_timeline (f : StateTimeline.t -> StateTimeline.t) (w : World)
  : World :=
  with_this (fun s => set_state (f (_state s)) s) w.

Definition Invocation_time (i : Invocation) : Q :=
  match i with
  | call_start tm _ _ | call_stop tm | call_restart tm _ _ => tm
  end.

(** The rendering clock and the Transport move between two calls: the
    context an instance sees at its next call is another one. *)
Definition set_context (c : Context) (w : World) : World :=
  mkWorld (this w) c (invoked w) (closures w).

Definition invoke (i : Invocation) (w : World) : World :=
  mkWorld (this w) (context w) (invoked w ++ [i]) (closures w).

(** The constructor: an empty Timeline defaulting to [stopped] with
    [memory = 100], not synced, nothing tracked, both bridges [noOp]. *)
Definition new_Source (mute : bool) (onstop0 : Fn) : Source :=
  mkSource (mkVolume mute false) onstop0
    (StateTimeline.create 100) false [] noOp noOp.

Definition new_World (mute : bool) (onstop0 : Fn) (c : Context) : World :=
  mkWorld (new_Source mute onstop0) c [] 0.

(** ** Concrete collaborators used to evaluate the methods on examples *)

(** A conversion for the non-numeric cases of [Time]: every string and
    object denotes 0 seconds and an omitted time denotes [now()]. *)
Definition zero_toSeconds (c : Context) (time : option Time) : Q :=
  match time with
  | None => now c
  | Some _ => 0
  end.

(** A Transport whose position runs with the rendering clock. *)
Definition identity_getSecondsAtTime (T : Transport.t) (tm : Q) : Q := tm.

Definition idle_Transport : Transport.t :=
  Transport.mkTransport 0 Transport.Stopped [] [] 0.

(** An offline context at time 0, 44.1 kHz, no look-ahead. *)
Definition offline_Context : Context :=
  mkContext 0 0 44100 idle_Transport.

(** ** The methods of Source *)

Section WithCollaborators.

Import StateTimeline.

(** Modelled from the spec: core/type/Time.ts is not among the sources.
    [TimeClass_toSeconds] is the conversion of the strings, objects and
    of the omitted argument; it may depend on the context (tempo, current
    time). *)
Variable TimeClass_toSeconds : Context -> option Time -> Q.

(** Modelled from the spec: [transport.getSecondsAtTime(renderingTime)],
    missing with Transport.ts, maps a rendering-clock instant to the
    Transport's logical position. *)
Variable getSecondsAtTime : Transport.t -> Q -> Q.

(** ToneWithContext.toSeconds.  A number is already a number of seconds
    ([Seconds] in Units.ts); the other cases go through the conversion. *)
Definition toSeconds (c : Context) (time : option Time) : Q :=
  match time with
  | Some (TNumber n) => n
  | _ => TimeClass_toSeconds c time
  end.

(** The body of the closure [sync] stores in [_syncedStart]. *)
Definition syncedStart_body (time offset : Q) (w : World) : World :=
  if negb (Qle_bool offset 0) then
    match StateTimeline.get (_state (this w)) offset with
    | Some stateEvent =>
        if BasicPlaybackState_eqb (StateTimeline.state stateEvent) started
           && negb (Qeq_bool (StateTimeline.time stateEvent) offset)
        then
          let startOffset :=
            offset - toSeconds (context w)
                       (Some (TNumber (StateTimeline.time stateEvent))) in
          let duration :=
            if truthyNumber (StateTimeline.duration stateEvent)
            then Some (TNumber
                   (toSeconds (context w)
                      (option_map TNumber
                         (StateTimeline.duration stateEvent))
                    - startOffset))
            else None in
          invoke
            (call_start time
               (Some (TNumber
                  (toSeconds (context w)
                     (option_map TNumber (StateTimeline.offset stateEvent))
                   + startOffset)))
               duration) w
        else w
    | None => w
    end
  else w.

(** The body of the closure [sync] stores in [_syncedStop]. *)
Definition syncedStop_body (time : Q) (w : World) : World :=
  let seconds :=
    getSecondsAtTime (transport (context w))
      (Math_max (time - sampleTime (context w)) 0) in
  match StateTimeline.getValueAtTime (_state (this w)) seconds with
  | started => invoke (call_stop time) w
  | stopped => w
  end.

(** Calling a function value.  The bridge closures capture [this]; the
    placeholder does nothing; functions of other parties do not touch
    this instance. *)
Definition call (f : Fn) (time offset : Q) (w : World) : World :=
  match f with
  | noOp => w
  | SyncedStartFn _ => syncedStart_body time offset w
  | SyncedStopFn _ => syncedStop_body time w
  | OtherFn _ => w
  end.

(** Modelled from the spec: the Transport announcing a lifecycle event
    ([start] and [loopStart] with the rendering time and the offset, the
    others with the rendering time) to the listeners registered for it. *)
Definition emit (event : string) (time offset : Q) (w : World) : World :=
  fold_left (fun w' f => call f time offset w')
    (Transport.listeners event (transport (context w))) w.

(** Modelled from the spec: the Transport running a deferred callback at
    rendering time [time]. *)
Definition run_callback (cb : Callback) (time : Q) (w : World) : World :=
  match cb with
  | StartCallback offset duration => invoke (call_start time offset duration) w
  | StopCallback => invoke (call_stop time) w
  | OtherCallback _ => w
  end.

(** [get state()] *)
Definition state (w : World) : BasicPlaybackState :=
  if _synced (this w) then
    if Transport.PlaybackState_eqb
         (Transport.state (transport (context w))) Transport.Started
    then StateTimeline.getValueAtTime (_state (this w))
           (Transport.seconds (transport (context w)))
    else stopped
  else StateTimeline.getValueAtTime (_state (this w)) (now (context w)).

(** [get mute()] / [set mute(mute)] *)
Definition mute (w : World) : bool := Volume_mute (_volume (this w)).

Definition set_mute (m : bool) (w : World) : World :=
  with_this
    (fun s => set_volume (mkVolume m (Volume_disposed (_volume s))) s) w.

(** The first statement of both [start] and [stop]. *)
Definition computedTime (time : option Time) (w : World) : Q :=
  if isUndef time && _synced (this w)
  then Transport.seconds (transport (context w))
  else Math_max (toSeconds (context w) time) (currentTime (context w)).

(** [transport.schedule(cb, time)] followed by [this._scheduled.push]. *)
Definition schedule_and_track (cb : Callback) (tm : Q) (w : World) : World :=
  let (sched, T) := Transport.schedule cb tm (transport (context w)) in
  with_this (fun s => set_scheduled (_scheduled s ++ [sched]) s)
    (with_transport (fun _ => T) w).

(** [start(time?, offset?, duration?)].  [this.log] writes to the debug
    console only and is left out, here and in [stop]. *)
Definition start (time offset duration : option Time) (w : World) : World :=
  let computedTime := computedTime time w in
  match StateTimeline.getValueAtTime (_state (this w)) computedTime with
  | started =>
      let w := with_timeline (StateTimeline.cancel computedTime) w in
      let w :=
        with_timeline (StateTimeline.setStateAtTime started computedTime) w in
      invoke (call_restart computedTime offset duration) w
  | stopped =>
      let w :=
        with_timeline (StateTimeline.setStateAtTime started computedTime) w in
      if _synced (this w) then
        let event_offset :=
          toSeconds (context w) (Some (defaultArg offset (TNumber 0))) in
        let event_duration :=
          if truthy duration
          then Some (toSeconds (context w) duration) else None in
        let w :=
          with_timeline
            (StateTimeline.update
               (StateTimeline.set_offset_duration
                  (Some event_offset) event_duration)
               computedTime) w in
        let w :=
          schedule_and_track (StartCallback offset duration) computedTime w in
        if Transport.PlaybackState_eqb
             (Transport.state (transport (context w))) Transport.Started
        then call (_syncedStart (this w)) (now (context w))
               (Transport.seconds (transport (context w))) w
        else w
      else invoke (call_start computedTime offset duration) w
  end.

(** [stop(time?)] *)
Definition stop (time : option Time) (w : World) : World :=
  let computedTime := computedTime time w in
  let w :=
    if negb (_synced (this w))
    then invoke (call_stop computedTime) w
    else schedule_and_track StopCallback computedTime w in
  let w := with_timeline (StateTimeline.cancel computedTime) w in
  with_timeline (StateTimeline.setStateAtTime stopped computedTime) w.

(** [sync()] *)
Definition sync (w : World) : World :=
  if negb (_synced (this w)) then
    let f := SyncedStartFn (closures w) in
    let g := SyncedStopFn (S (closures w)) in
    let w :=
      mkWorld (set_bridges f g (set_synced true (this w))) (context w)
        (invoked w) (S (S (closures w))) in
    let w := with_transport (Transport.on "start" f) w in
    let w := with_transport (Transport.on "loopStart" f) w in
    let w := with_transport (Transport.on "stop" g) w in
    let w := with_transport (Transport.on "pause" g) w in
    with_transport (Transport.on "loopEnd" g) w
  else w.

(** [unsync()] *)
Definition unsync (w : World) : World :=
  let w :=
    if _synced (this w) then
      let w :=
        with_transport (Transport.off "stop" (_syncedStop (this w))) w in
      let w :=
        with_transport (Transport.off "pause" (_syncedStop (this w))) w in
      let w :=
        with_transport (Transport.off "loopEnd" (_syncedStop (this w))) w in
      let w :=
        with_transport (Transport.off "start" (_syncedStart (this w))) w in
      with_transport (Transport.off "loopStart" (_syncedStart (this w))) w
    else w in
  let w := with_this (set_synced false) w in
  let w :=
    fold_left (fun w' i => with_transport (Transport.clear i) w')
      (_scheduled (this w)) w in
  let w := with_this (set_scheduled []) w in
  with_timeline (StateTimeline.cancel 0) w.

(** [dispose()].  [super.dispose()] belongs to ToneAudioNode, which is not
    among the sources; it releases audio-graph nodes and touches none of
    the fields kept here. *)
Definition dispose (w : World) : World :=
  let w := with_this (set_onstop noOp) w in
  let w := unsync w in
  let w :=
    with_this
      (fun s => set_volume (mkVolume (Volume_mute (_volume s)) true) s) w in
  with_timeline StateTimeline.dispose w.


(** ** Observations used to state the properties *)

(** The events of a Timeline at or after a time, and its [started]
    entries. *)
Definition at_or_after (tm : Q) (tl : StateTimeline.t)
  : list StateTimeline.StateEvent :=
  filter (fun e => Qle_bool tm (StateTimeline.time e))
    (StateTimeline._timeline tl).

Definition started_entries (tl : StateTimeline.t)
  : list StateTimeline.StateEvent :=
  filter (fun e => BasicPlaybackState_eqb (StateTimeline.state e) started)
    (StateTimeline._timeline tl).

(** Every time recorded in a Timeline satisfies [P]. *)
Definition times_satisfy (P : Q -> Prop) (tl : StateTimeline.t) : Prop :=
  Forall (fun e => P (StateTimeline.time e)) (StateTimeline._timeline tl).

(** A call [w ~> w'] acted at time [tm]: it either invoked one primitive
    of the concrete unit with that time, or registered one deferred
    callback with the Transport for that time. *)
Definition acted_at (tm : Q) (w w' : World) : Prop :=
  (exists i, invoked w' = invoked w ++ [i] /\ Invocation_time i = tm /\
             context w' = context w) \/
  (exists e, Transport._timeline (transport (context w')) =
             Transport._timeline (transport (context w)) ++ [e] /\
             Transport.at_time e = tm).

(** The invocation the sync-start bridge makes according to the words of
    the specification: offset [e.offset + (o - e.time)] and duration
    [e.duration - (o - e.time)] if a duration was recorded. *)
Definition claimed_syncedStart_invocation
    (c : Context) (r o : Q) (e : StateTimeline.StateEvent) : Invocation :=
  call_start r
    (Some (TNumber
       (toSeconds c (option_map TNumber (StateTimeline.offset e))
        + (o - StateTimeline.time e))))
    (option_map (fun d => TNumber (d - (o - StateTimeline.time e)))
       (StateTimeline.duration e)).

(** The five listeners [sync] installs, as (event, function) pairs. *)
Definition bridge_listeners (s : Source) : list (string * Fn) :=
  [("start"%string, _syncedStart s); ("loopStart"%string, _syncedStart s);
   ("stop"%string, _syncedStop s); ("pause"%string, _syncedStop s);
   ("loopEnd"%string, _syncedStop s)].

(** What can happen to an instance between [sync] and [unsync]: calls of
    its methods, the clocks moving, the Transport announcing a lifecycle
    event or running a deferred callback. *)
Inductive Step : Type :=
| do_start (time offset duration : option Time)
| do_stop (time : option Time)
| do_sync
| clocks_move (currentTime' seconds' : Q) (state' : Transport.PlaybackState)
| transport_emits (event : string) (time offset : Q)
| transport_runs (cb : Callback) (time : Q).

Definition move_clocks (c s : Q) (st : Transport.PlaybackState)
    (w : World) : World :=
  set_context
    (mkContext c (lookAhead (context w)) (sampleRate (context w))
       (Transport.mkTransport s st
          (Transport._events (transport (context w)))
          (Transport._timeline (transport (context w)))
          (Transport._eventID (transport (context w)))))
    w.

Definition step (s : Step) (w : World) : World :=
  match s with
  | do_start time offset duration => start time offset duration w
  | do_stop time => stop time w
  | do_sync => sync w
  | clocks_move c s st => move_clocks c s st w
  | transport_emits event time offset => emit event time offset w
  | transport_runs cb time => run_callback cb time w
  end.

Definition run (steps : list Step) (w : World) : World :=
  fold_left (fun w' s => step s w') steps w.

(** The rendering clock and the Transport position are never negative. *)
Definition plausible (s : Step) : Prop :=
  match s with
  | clocks_move c s _ => 0 <= c /\ 0 <= s
  | _ => True
  end.

(** What [start], [stop] and [sync] never touch, and what they only add
    to: the identifiers tracked by the instance and the callbacks the
    Transport holds. *)
Record extends (w w' : World) : Prop := mkExtends {
  ext_synced_start : _syncedStart (this w') = _syncedStart (this w)
                     \/ _synced (this w) = false;
  ext_synced_stop : _syncedStop (this w') = _syncedStop (this w)
                    \/ _synced (this w) = false;
  ext_currentTime : currentTime (context w') = currentTime (context w);
  ext_seconds : Transport.seconds (transport (context w')) =
                Transport.seconds (transport (context w));
  ext_events : exists l,
      Transport._events (transport (context w')) =
      Transport._events (transport (context w)) ++ l;
  ext_scheduled : exists l,
      _scheduled (this w') = _scheduled (this w) ++ l;
  ext_timeline : exists l,
      Transport._timeline (transport (context w')) =
      Transport._timeline (transport (context w)) ++ l
}.

(** What holds of a synced instance [w] that started out as [w0], as long
    as the rendering clock and the Transport position are not negative:
    it stays synced, keeps its two bridge closures, the listeners the
    Transport held stay installed, and no recorded time is negative. *)
Record synced_invariant (w0 w : World) : Prop := mkSyncedInvariant {
  inv_synced : _synced (this w) = true;
  inv_bridges : bridge_listeners (this w) = bridge_listeners (this w0);
  inv_events : forall p,
      In p (Transport._events (transport (context w0))) ->
      In p (Transport._events (transport (context w)));
  inv_times : Forall (fun e => 0 <= StateTimeline.time e)
                (StateTimeline._timeline (_state (this w)));
  inv_clock : 0 <= currentTime (context w);
  inv_seconds : 0 <= Transport.seconds (transport (context w))
}.

(** The instance keeps what it tracks and the Transport keeps what it
    holds. *)
Definition keeps_registrations (w w' : World) : Prop :=
  (forall i, In i (_scheduled (this w)) -> In i (_scheduled (this w'))) /\
  (forall e, In e (Transport._timeline (transport (context w))) ->
             In e (Transport._timeline (transport (context w')))).

(** [this._scheduled.forEach(id => this.context.transport.clear(id))] seen
    from the Transport. *)
Definition clear_all (ids : list nat) (T : Transport.t) : Transport.t :=
  fold_left (fun T' i => Transport.clear i T') ids T.

(** The five [off] calls of [unsync], seen from the Transport. *)
Definition off_bridges (s : Source) (T : Transport.t) : Transport.t :=
  Transport.off "loopStart" (_syncedStart s)
    (Transport.off "start" (_syncedStart s)
       (Transport.off "loopEnd" (_syncedStop s)
          (Transport.off "pause" (_syncedStop s)
             (Transport.off "stop" (_syncedStop s) T)))).

(** The public methods as one entry point.  A call either returns, with
    the world it leaves, or throws.  Source.ts has no [throw] and tests no
    disposed flag: each of its methods returns. *)
Inductive Method : Type :=
| m_start (time offset duration : option Time)
| m_stop (time : option Time)
| m_sync
| m_unsync
| m_dispose.

Inductive Outcome : Type :=
| Returns (w : World)
| Throws (message : string).

Definition call_method (m : Method) (w : World) : Outcome :=
  match m with
  | m_start time offset duration => Returns (start time offset duration w)
  | m_stop time => Returns (stop time w)
  | m_sync => Returns (sync w)
  | m_unsync => Returns (unsync w)
  | m_dispose => Returns (dispose w)
  end.

(** The instances a program can build: a new one, and what the methods,
    the clocks and the Transport make of it. *)
Inductive reachable : World -> Prop :=
| reach_new (m : bool) (f : Fn) (c : Context) : reachable (new_World m f c)
| reach_start (w : World) (time offset duration : option Time) :
    reachable w -> reachable (start time offset duration w)
| reach_stop (w : World) (time : option Time) :
    reachable w -> reachable (stop time w)
| reach_sync (w : World) : reachable w -> reachable (sync w)
| reach_unsync (w : World) : reachable w -> reachable (unsync w)
| reach_dispose (w : World) : reachable w -> reachable (dispose w)
| reach_clocks (w : World) (c s : Q) (st : Transport.PlaybackState) :
    reachable w -> reachable (move_clocks c s st w)
| reach_emit (w : World) (event : string) (time offset : Q) :
    reachable w -> reachable (emit event time offset w)
| reach_callback (w : World) (cb : Callback) (time : Q) :
    reachable w -> reachable (run_callback cb time w).

(** The callbacks and listeners on the Transport that come from a Source:
    the deferred [_start]/[_stop] callbacks and the bridge closures. *)
Definition own_callback (cb : Callback) : bool :=
  match cb with
  | StartCallback _ _ | StopCallback => true
  | OtherCallback _ => false
  end.

Definition own_listener (f : Fn) : bool :=
  match f with
  | SyncedStartFn _ | SyncedStopFn _ => true
  | noOp | OtherFn _ => false
  end.

Definition own_callbacks (T : Transport.t) : list Transport.TransportEvent :=
  filter (fun e => own_callback (Transport.callback e)) (Transport._timeline T).

Definition own_listeners (T : Transport.t) : list (string * Fn) :=
  filter (fun p => own_listener (snd p)) (Transport._events T).

(** Every callback of the instance that the Transport holds is tracked. *)
Definition tracked_is_authoritative (w : World) : Prop :=
  forall e, In e (Transport._timeline (transport (context w))) ->
            own_callback (Transport.callback e) = true ->
            In (Transport.id e) (_scheduled (this w)).

(** The bridge closures the Transport holds are the five listeners of the
    instance while it is synced, and none while it is not. *)
Definition listeners_match_sync (w : World) : Prop :=
  own_listeners (transport (context w)) =
  if _synced (this w) then bridge_listeners (this w) else [].

(** [w] is what a program made of [w0]: by calling methods, while the
    clocks move and the Transport announces events and runs callbacks. *)
Inductive evolves (w0 : World) : World -> Prop :=
| evolves_refl : evolves w0 w0
| evolves_method (w w' : World) (m : Method) :
    evolves w0 w -> call_method m w = Returns w' -> evolves w0 w'
| evolves_step (w : World) (s : Step) :
    evolves w0 w -> evolves w0 (step s w).


(** ** Facts about the Timeline *)

Lemma get_events_app (l1 l2 : list StateEvent) (tm : Q) :
  get_events (l1 ++ l2) tm =
  match get_events l2 tm with
  | Some e => Some e
  | None => get_events l1 tm
  end.
Proof.
  induction l1 as [|x l1 IH]; simpl.
  - destruct (get_events l2 tm); reflexivity.
  - rewrite IH. destruct (get_events l2 tm); reflexivity.
Qed.

Lemma get_events_In (l : list StateEvent) (tm : Q) (e : StateEvent) :
  get_events l tm = Some e -> In e l /\ time e <= tm.
Proof.
  induction l as [|x l IH]; simpl; [discriminate|].
  destruct (get_events l tm) as [e'|] eqn:E.
  - intros H; inversion H; subst. destruct (IH eq_refl); auto.
  - destruct (Qle_bool (time x) tm) eqn:L; [|discriminate].
    intros H; inversion H; subst. split; [auto|].
    now apply Qle_bool_iff.
Qed.

Lemma insert_after_all (e : StateEvent) (l : list StateEvent) :
  Forall (fun x => time x < time e) l -> insert e l = l ++ [e].
Proof.
  induction 1 as [|x l Hx _ IH]; simpl; [reflexivity|].
  destruct (Qeq_bool (time x) (time e)) eqn:E.
  - apply Qeq_bool_iff in E. lra.
  - destruct (Qle_bool (time x) (time e)) eqn:L.
    + now rewrite IH.
    + assert (time x <= time e) as C by lra.
      apply Qle_bool_iff in C. congruence.
Qed.

Lemma cancel_keeps_earlier (tm : Q) (l : list StateEvent) :
  Forall (fun x => time x < tm) l ->
  filter (fun e => negb (Qle_bool tm (time e))) l = l.
Proof.
  induction 1 as [|x l Hx _ IH]; simpl; [reflexivity|].
  destruct (Qle_bool tm (time x)) eqn:L; simpl.
  - apply Qle_bool_iff in L. lra.
  - now rewrite IH.
Qed.

Lemma evict_app (mem : nat) (l tail : list StateEvent) :
  (List.length tail <= mem)%nat ->
  evict mem (l ++ tail) =
  skipn (List.length l + List.length tail - mem) l ++ tail.
Proof.
  intros H. unfold evict. rewrite length_app, skipn_app.
  replace (List.length l + List.length tail - mem - List.length l)%nat
    with 0%nat by lia.
  reflexivity.
Qed.

Lemma In_skipn {A : Type} (n : nat) (l : list A) (x : A) :
  In x (skipn n l) -> In x l.
Proof.
  intros H. rewrite <- (firstn_skipn n l). apply in_or_app. now right.
Qed.

Lemma Forall_skipn {A : Type} (P : A -> Prop) (n : nat) (l : list A) :
  Forall P l -> Forall P (skipn n l).
Proof.
  rewrite !Forall_forall. intros H x Hx. apply H. eapply In_skipn; eauto.
Qed.

(** A ledger that holds only [stopped] events answers [stopped]. *)
Lemma getValueAtTime_all_stopped (tl : StateTimeline.t) (tm : Q) :
  Forall (fun e => StateTimeline.state e = stopped) (_timeline tl) ->
  getValueAtTime tl tm = stopped.
Proof.
  intros H. unfold getValueAtTime, get.
  destruct (get_events (_timeline tl) tm) as [e|] eqn:E; [|reflexivity].
  apply get_events_In in E. rewrite Forall_forall in H. now apply H.
Qed.

(** What the ledger answers after a [started] event at [a] and a
    [stopped] event at [b] were appended to quiet history. *)
Lemma timeline_started_then_stopped
    (tl : StateTimeline.t) (a b tm : Q) :
  Forall (fun e => time e < a /\ StateTimeline.state e = stopped)
    (_timeline tl) ->
  a < b ->
  (2 <= memory tl)%nat ->
  let tl' :=
    setStateAtTime stopped b (cancel b (setStateAtTime started a tl)) in
  (tm < a -> getValueAtTime tl' tm = stopped) /\
  (a <= tm -> tm < b -> getValueAtTime tl' tm = started) /\
  (b <= tm -> getValueAtTime tl' tm = stopped).
Proof.
  intros HQ Hab Hmem. destruct tl as [l mem]. simpl in *.
  assert (Forall (fun x => time x < a) l) as Hlt
    by (eapply Forall_impl; [|exact HQ]; simpl; tauto).
  assert (Forall (fun x => StateTimeline.state x = stopped) l) as Hst
    by (eapply Forall_impl; [|exact HQ]; simpl; tauto).
  unfold setStateAtTime, cancel, getValueAtTime, get. simpl.
  rewrite (insert_after_all (mkEvent a started None None None) l) by exact Hlt.
  rewrite (evict_app mem l [_]) by (simpl; lia).
  simpl List.length.
  set (l1 := skipn (List.length l + 1 - mem) l).
  assert (Forall (fun x => time x < a) l1) as Hlt1
    by (apply Forall_skipn; exact Hlt).
  assert (Forall (fun x => StateTimeline.state x = stopped) l1) as Hst1
    by (apply Forall_skipn; exact Hst).
  rewrite cancel_keeps_earlier.
  2:{ apply Forall_app; split.
      - eapply Forall_impl; [|exact Hlt1]. simpl. intros; lra.
      - constructor; [simpl; lra|constructor]. }
  rewrite insert_after_all.
  2:{ apply Forall_app; split.
      - eapply Forall_impl; [|exact Hlt1]. simpl. intros; lra.
      - constructor; [simpl; lra|constructor]. }
  rewrite <- app_assoc. simpl app.
  rewrite (evict_app mem l1 [_; _]) by (simpl; lia).
  set (l2 := skipn _ l1).
  assert (Forall (fun x => StateTimeline.state x = stopped) l2) as Hst2
    by (apply Forall_skipn; exact Hst1).
  assert (Forall (fun x => time x < a) l2) as Hlt2
    by (apply Forall_skipn; exact Hlt1).
  rewrite get_events_app. simpl.
  assert (forall x y, Qle_bool x y = false -> y < x) as Hfalse.
  { intros x y F. apply Qnot_le_lt. intros C.
    apply Qle_bool_iff in C. congruence. }
  destruct (Qle_bool b tm) eqn:Lb;
    [apply Qle_bool_iff in Lb | apply Hfalse in Lb];
    (destruct (Qle_bool a tm) eqn:La;
     [apply Qle_bool_iff in La | apply Hfalse in La]);
    simpl; repeat split; intros; try reflexivity; try lra.
  destruct (get_events l2 tm) as [e|] eqn:E; [|reflexivity].
  apply get_events_In in E. rewrite Forall_forall in Hst2.
  now apply Hst2.
Qed.

(** ** Effective times *)

Lemma Math_max_spec (a b : Q) :
  a <= Math_max a b /\ b <= Math_max a b /\
  (Math_max a b = a \/ Math_max a b = b).
Proof.
  unfold Math_max. destruct (Qle_bool a b) eqn:L.
  - apply Qle_bool_iff in L. repeat split; auto; lra.
  - assert (b < a).
    { apply Qnot_le_lt. intros C. apply Qle_bool_iff in C. congruence. }
    repeat split; auto; lra.
Qed.

Lemma Math_max_clamped (a b : Q) : b <= a -> Math_max a b == a.
Proof.
  intros H. destruct (Math_max_spec a b) as (Ha & Hb & [E|E]);
    rewrite E in *; lra.
Qed.

Lemma computedTime_unsynced (time : option Time) (w : World) :
  _synced (this w) = false ->
  computedTime time w =
  Math_max (toSeconds (context w) time) (currentTime (context w)).
Proof.
  intros H. unfold computedTime. rewrite H, andb_false_r. reflexivity.
Qed.

(** ** start then stop *)

(** C1.  On an instance that is not synced and whose Timeline holds
    nothing but [stopped] events earlier than [t0] (a new instance holds
    none): after [start(t0)] and then [stop(t1)] with [t0 < t1], both
    times not earlier than the rendering clock at the time of the call,
    the Timeline answers [stopped] before [t0], [started] from [t0] up to
    but excluding [t1], and [stopped] from [t1] on. *)
Theorem start_then_stop_timeline
    (w : World) (c1 : Context) (time0 time1 offset duration : option Time)
    (t0 t1 tm : Q) :
  _synced (this w) = false ->
  toSeconds (context w) time0 = t0 ->
  toSeconds c1 time1 = t1 ->
  currentTime (context w) <= t0 ->
  currentTime c1 <= t1 ->
  t0 < t1 ->
  (2 <= memory (_state (this w)))%nat ->
  Forall (fun e => time e < t0 /\ StateTimeline.state e = stopped)
    (_timeline (_state (this w))) ->
  let w' := stop time1 (set_context c1 (start time0 offset duration w)) in
  (tm < t0 -> getValueAtTime (_state (this w')) tm = stopped) /\
  (t0 <= tm -> tm < t1 -> getValueAtTime (_state (this w')) tm = started) /\
  (t1 <= tm -> getValueAtTime (_state (this w')) tm = stopped).
Proof.
  intros Hs E0 E1 Hc0 Hc1 Hlt Hmem HQ.
  pose proof (Math_max_clamped t0 (currentTime (context w)) Hc0) as Ea.
  pose proof (Math_max_clamped t1 (currentTime c1) Hc1) as Eb.
  set (a := Math_max t0 (currentTime (context w))) in *.
  set (b := Math_max t1 (currentTime c1)) in *.
  assert (Forall (fun e => time e < a /\ StateTimeline.state e = stopped)
            (_timeline (_state (this w)))) as HQa.
  { eapply Forall_impl; [|exact HQ]. simpl. intros e [? ?]. split; [lra|auto]. }
  assert (start time0 offset duration w =
          invoke (call_start a offset duration)
            (with_timeline (setStateAtTime started a) w)) as Hstart.
  { unfold start. rewrite computedTime_unsynced by exact Hs. rewrite E0.
    fold a. rewrite getValueAtTime_all_stopped.
    2:{ eapply Forall_impl; [|exact HQ]. simpl. tauto. }
    simpl. rewrite Hs. reflexivity. }
  rewrite Hstart. unfold stop.
  rewrite computedTime_unsynced by (simpl; exact Hs).
  simpl context. rewrite E1. fold b. simpl. rewrite Hs. simpl.
  destruct (timeline_started_then_stopped (_state (this w)) a b tm HQa)
    as (H1 & H2 & H3); [lra|exact Hmem|].
  repeat split; intros.
  - apply H1. lra.
  - apply H2; lra.
  - apply H3. lra.
Qed.

(** ** What a call leaves alone *)

Lemma syncedStart_body_frame (time offset : Q) (w : World) :
  this (syncedStart_body time offset w) = this w /\
  context (syncedStart_body time offset w) = context w /\
  closures (syncedStart_body time offset w) = closures w.
Proof.
  unfold syncedStart_body.
  destruct (negb (Qle_bool offset 0)); [|auto].
  destruct (get (_state (this w)) offset) as [e|]; [|auto].
  destruct (_ && _); auto.
Qed.

Lemma syncedStop_body_frame (time : Q) (w : World) :
  this (syncedStop_body time w) = this w /\
  context (syncedStop_body time w) = context w /\
  closures (syncedStop_body time w) = closures w.
Proof.
  unfold syncedStop_body. destruct (getValueAtTime _ _); auto.
Qed.

Lemma call_frame (f : Fn) (time offset : Q) (w : World) :
  this (call f time offset w) = this w /\
  context (call f time offset w) = context w /\
  closures (call f time offset w) = closures w.
Proof.
  destruct f; simpl; auto using syncedStart_body_frame, syncedStop_body_frame.
Qed.

(** ** The restart branch of start *)

Lemma cancel_all_earlier (tm : Q) (l : list StateEvent) :
  Forall (fun x => time x < tm)
    (filter (fun e => negb (Qle_bool tm (time e))) l).
Proof.
  apply Forall_forall. intros x Hx. apply filter_In in Hx as [_ Hx].
  apply Qnot_le_lt. intros C. apply Qle_bool_iff in C.
  rewrite C in Hx. discriminate.
Qed.

Lemma filter_none {A : Type} (p : A -> bool) (l : list A) :
  Forall (fun x => p x = false) l -> filter p l = [].
Proof.
  induction 1 as [|x l Hx _ IH]; simpl; [reflexivity|]. now rewrite Hx.
Qed.

Lemma cancel_then_set (s : BasicPlaybackState) (tm : Q)
    (tl : StateTimeline.t) :
  (1 <= memory tl)%nat ->
  exists l,
    _timeline (setStateAtTime s tm (cancel tm tl)) =
      l ++ [mkEvent tm s None None None] /\
    Forall (fun x => time x < tm) l /\
    (forall x, In x l -> In x (_timeline tl)).
Proof.
  intros Hmem. destruct tl as [l mem]. simpl in *.
  pose proof (cancel_all_earlier tm l) as Hlt.
  set (l1 := filter _ l) in *.
  unfold setStateAtTime, cancel. simpl. fold l1.
  rewrite insert_after_all by exact Hlt.
  rewrite (evict_app mem l1 [_]) by (simpl; lia).
  eexists; split; [reflexivity|]. split.
  - apply Forall_skipn. exact Hlt.
  - intros x Hx. apply In_skipn in Hx. unfold l1 in Hx.
    apply filter_In in Hx. tauto.
Qed.

(** C2 (amended).  When the Timeline already answers [started] at the
    effective time [t] of a call to [start], the call cancels every event
    at or after [t], records a [started] event at [t] and delegates to
    [restart] (it does not invoke [_start] and leaves the Transport and
    the tracked identifiers alone); afterwards the Timeline holds exactly
    one event at or after [t], the [started] event at [t], and every
    other event it holds was there before and is earlier than [t]. *)
Theorem start_while_started_restarts
    (w : World) (time offset duration : option Time) :
  let t := computedTime time w in
  getValueAtTime (_state (this w)) t = started ->
  (1 <= memory (_state (this w)))%nat ->
  let w' := start time offset duration w in
  w' = invoke (call_restart t offset duration)
         (with_timeline
            (fun tl => setStateAtTime started t (cancel t tl)) w) /\
  invoked w' = invoked w ++ [call_restart t offset duration] /\
  context w' = context w /\
  _scheduled (this w') = _scheduled (this w) /\
  at_or_after t (_state (this w')) = [mkEvent t started None None None] /\
  (forall e, In e (_timeline (_state (this w'))) ->
             StateTimeline.time e < t ->
             In e (_timeline (_state (this w)))).
Proof.
  intros t Hst Hmem w'.
  assert (w' = invoke (call_restart t offset duration)
                 (with_timeline
                    (fun tl => setStateAtTime started t (cancel t tl)) w))
    as Hw'.
  { unfold w', start. fold t. rewrite Hst. reflexivity. }
  assert (_state (this w') =
          setStateAtTime started t (cancel t (_state (this w)))) as Htl
    by (rewrite Hw'; reflexivity).
  destruct (cancel_then_set started t (_state (this w)) Hmem)
    as (l & El & Hlt & Hin).
  rewrite <- Htl in El.
  split; [exact Hw'|].
  split; [rewrite Hw'; reflexivity|].
  split; [rewrite Hw'; reflexivity|].
  split; [rewrite Hw'; reflexivity|].
  split.
  - unfold at_or_after. rewrite El, filter_app. simpl.
    rewrite filter_none.
    + assert (Qle_bool t t = true) as R by (apply Qle_bool_iff; lra).
      now rewrite R.
    + eapply Forall_impl; [|exact Hlt]. simpl. intros x Hx.
      destruct (Qle_bool t (StateTimeline.time x)) eqn:L; [|reflexivity].
      apply Qle_bool_iff in L. lra.
  - intros e He Hlt'.
    rewrite El in He. apply in_app_or in He as [He|He]; [auto|].
    simpl in He. destruct He as [<-|[]]. simpl in Hlt'. lra.
Qed.

(** ** The effective time of start and stop *)

Lemma start_acted_at (time offset duration : option Time) (w : World) :
  acted_at (computedTime time w) w (start time offset duration w).
Proof.
  unfold start. set (t := computedTime time w).
  destruct (getValueAtTime (_state (this w)) t).
  - left. eexists. repeat split.
  - cbn [this with_timeline with_this set_state _synced].
    destruct (_synced (this w)).
    + right. eexists.
      match goal with
      | |- context [if ?c then call ?f ?a ?b ?x else _] =>
          replace (context (if c then call f a b x else x))
            with (context x)
            by (destruct c; [symmetry; apply call_frame|reflexivity])
      end.
      split; reflexivity.
    + left. eexists. repeat split.
Qed.

Lemma stop_acted_at (time : option Time) (w : World) :
  acted_at (computedTime time w) w (stop time w).
Proof.
  unfold stop. set (t := computedTime time w).
  destruct (_synced (this w)); simpl.
  - right. eexists. split; reflexivity.
  - left. eexists. repeat split.
Qed.

(** The branch of [start] taken by a synced instance whose Timeline
    answers [stopped] at the effective time: the instance and the context
    are those left by recording the event and tracking the callback; the
    immediate call of the bridge only invokes primitives. *)
Lemma start_synced_stopped
    (time offset duration : option Time) (w : World) :
  _synced (this w) = true ->
  getValueAtTime (_state (this w)) (computedTime time w) = stopped ->
  let t := computedTime time w in
  let w1 :=
    schedule_and_track (StartCallback offset duration) t
      (with_timeline
         (update
            (set_offset_duration
               (Some (toSeconds (context w)
                        (Some (defaultArg offset (TNumber 0)))))
               (if truthy duration
                then Some (toSeconds (context w) duration) else None))
            t)
         (with_timeline (setStateAtTime started t) w)) in
  this (start time offset duration w) = this w1 /\
  context (start time offset duration w) = context w1.
Proof.
  intros Hs Hv t w1. unfold start. cbv zeta. rewrite Hv. fold t.
  cbn [this with_timeline with_this set_state _synced context].
  rewrite Hs. fold w1.
  destruct (Transport.PlaybackState_eqb _ _); [|auto].
  destruct (call_frame (_syncedStart (this w1)) (now (context w1))
              (Transport.seconds (transport (context w1))) w1)
    as (? & ? & _). auto.
Qed.

(** C3.  With an explicit time argument, the effective time of [start]
    and of [stop] is [max(toSeconds(time), currentTime)]: it is never
    before the rendering clock, an earlier request is moved to the
    rendering clock's time and still acted on; with the argument omitted
    on a synced instance it is the Transport's current seconds.  Both
    methods act at that time: the primitive they invoke, or the callback
    they register with the Transport, carries it. *)
Theorem effective_time_is_clamped
    (w : World) (time : Time) (offset duration : option Time) :
  let t := computedTime (Some time) w in
  t = Math_max (toSeconds (context w) (Some time)) (currentTime (context w))
  /\ currentTime (context w) <= t
  /\ toSeconds (context w) (Some time) <= t
  /\ (toSeconds (context w) (Some time) <= currentTime (context w) ->
      t = currentTime (context w))
  /\ acted_at t w (start (Some time) offset duration w)
  /\ acted_at t w (stop (Some time) w)
  /\ (_synced (this w) = true ->
      computedTime None w = Transport.seconds (transport (context w)) /\
      acted_at (Transport.seconds (transport (context w))) w
        (start None offset duration w) /\
      acted_at (Transport.seconds (transport (context w))) w
        (stop None w)).
Proof.
  intros t.
  assert (t = Math_max (toSeconds (context w) (Some time))
                (currentTime (context w))) as Ht by reflexivity.
  destruct (Math_max_spec (toSeconds (context w) (Some time))
              (currentTime (context w))) as (Ha & Hb & _).
  rewrite <- Ht in Ha, Hb.
  split; [exact Ht|]. split; [exact Hb|]. split; [exact Ha|].
  split.
  { intros Hle. rewrite Ht. unfold Math_max.
    apply Qle_bool_iff in Hle. now rewrite Hle. }
  split; [apply start_acted_at|]. split; [apply stop_acted_at|].
  intros Hs.
  assert (computedTime None w = Transport.seconds (transport (context w)))
    as E by (unfold computedTime; rewrite Hs; reflexivity).
  split; [exact E|]. rewrite <- E.
  split; [apply start_acted_at | apply stop_acted_at].
Qed.

(** ** The bridges *)

Lemma Qle_bool_false (x y : Q) : Qle_bool x y = false <-> y < x.
Proof.
  split.
  - intros F. apply Qnot_le_lt. intros C. apply Qle_bool_iff in C.
    congruence.
  - intros H. destruct (Qle_bool x y) eqn:L; [|reflexivity].
    apply Qle_bool_iff in L. lra.
Qed.

Lemma Qeq_bool_false (x y : Q) : Qeq_bool x y = false <-> ~ x == y.
Proof.
  split.
  - intros F C. apply Qeq_bool_iff in C. congruence.
  - intros H. destruct (Qeq_bool x y) eqn:L; [|reflexivity].
    apply Qeq_bool_iff in L. contradiction.
Qed.

Lemma emit_frame (l : list Fn) (time offset : Q) (w : World) :
  this (fold_left (fun w' f => call f time offset w') l w) = this w /\
  context (fold_left (fun w' f => call f time offset w') l w) = context w.
Proof.
  revert w. induction l as [|f l IH]; intros w; simpl; [auto|].
  destruct (IH (call f time offset w)) as [-> ->].
  destruct (call_frame f time offset w) as (? & ? & _). auto.
Qed.

(** C4 (amended).  The sync-start bridge, fired with rendering time [r]
    and transport offset [o], invokes [_start] exactly when [o > 0] and
    the Timeline event at or before [o] is a [started] event whose time
    differs from [o].  The invocation is
    [_start(r, e.offset + (o - e.time), d)] where [d] is
    [e.duration - (o - e.time)] when a duration other than 0 was
    recorded, and absent when none or 0 was recorded.  In particular,
    after [sync()] and [start(0)] on a new instance with the rendering
    clock at 0, the Transport announcing [start] with offset 0.5 ends
    with [_start] invoked with offset 0.5 and no duration. *)
Theorem syncedStart_bridge_replays (w : World) (r o : Q) :
  (forall e,
      0 < o ->
      get (_state (this w)) o = Some e ->
      StateTimeline.state e = started ->
      ~ time e == o ->
      exists off dur,
        syncedStart_body r o w =
          invoke (call_start r (Some (TNumber off)) dur) w /\
        off = toSeconds (context w) (option_map TNumber (offset e))
              + (o - time e) /\
        (forall v, offset e = Some v -> off = v + (o - time e)) /\
        (forall d, duration e = Some d -> ~ d == 0 ->
                   dur = Some (TNumber (d - (o - time e)))) /\
        (forall d, duration e = Some d -> d == 0 -> dur = None) /\
        (duration e = None -> dur = None))
  /\ (o <= 0 -> syncedStart_body r o w = w)
  /\ (get (_state (this w)) o = None -> syncedStart_body r o w = w)
  /\ (forall e, get (_state (this w)) o = Some e ->
                StateTimeline.state e = stopped \/ time e == o ->
                syncedStart_body r o w = w)
  /\ (forall (m : bool) (f : Fn) (c : Context),
        currentTime c == 0 ->
        let w' :=
          emit "start" r (1 # 2)
            (start (Some (TNumber 0)) None None (sync (new_World m f c))) in
        exists before q,
          invoked w' = before ++ [call_start r (Some (TNumber q)) None] /\
          q == 1 # 2).
Proof.
  split; [|split; [|split; [|split]]].
  - intros e Ho Hget Hst Hne. unfold syncedStart_body.
    apply Qle_bool_false in Ho. rewrite Ho, Hget, Hst. simpl.
    apply Qeq_bool_false in Hne. rewrite Hne. simpl.
    do 2 eexists. split; [reflexivity|]. split; [reflexivity|].
    split; [intros v ->; reflexivity|].
    split; [|split].
    + intros d -> Hd. apply Qeq_bool_false in Hd. simpl. now rewrite Hd.
    + intros d -> Hd. apply Qeq_bool_iff in Hd. simpl. now rewrite Hd.
    + intros ->. reflexivity.
  - intros Ho. unfold syncedStart_body. apply Qle_bool_iff in Ho.
    now rewrite Ho.
  - intros Hget. unfold syncedStart_body. rewrite Hget.
    now destruct (negb _).
  - intros e Hget H. unfold syncedStart_body. rewrite Hget.
    destruct (negb _); [|reflexivity].
    destruct H as [->|H]; [reflexivity|].
    apply Qeq_bool_iff in H. rewrite H.
    now destruct (BasicPlaybackState_eqb _ _).
  - intros m f c Hc w'.
    set (t := Math_max 0 (currentTime c)).
    assert (t == 0) as Ht.
    { destruct (Math_max_spec 0 (currentTime c)) as (_ & _ & [E|E]);
        unfold t; rewrite E; lra. }
    set (ev := mkEvent t started None (Some 0) None).
    set (w2 := start (Some (TNumber 0)) None None (sync (new_World m f c))).
    assert (_timeline (_state (this w2)) = [ev] /\
            Transport.listeners "start" (transport (context w2)) =
            Transport.listeners "start" (transport c) ++ [SyncedStartFn 0])
      as [Htl Hls].
    { destruct (start_synced_stopped (Some (TNumber 0)) None None
                  (sync (new_World m f c)) eq_refl eq_refl) as [E1 E2].
      fold w2 in E1, E2. rewrite E1, E2.
      assert (Qle_bool t t = true) as R by (apply Qle_bool_iff; lra).
      split.
      - unfold computedTime. simpl. fold t. rewrite R. reflexivity.
      - unfold Transport.listeners. simpl.
        rewrite !filter_app, !map_app. simpl.
        rewrite !app_nil_r. reflexivity. }
    unfold w', emit. fold w2. rewrite Hls, fold_left_app. simpl.
    set (wf := fold_left _ _ w2).
    assert (this wf = this w2) as Ethis by apply emit_frame.
    unfold syncedStart_body, get. rewrite Ethis, Htl. simpl.
    assert (Qle_bool t (1 # 2) = true) as R1 by (apply Qle_bool_iff; lra).
    assert (Qeq_bool t (1 # 2) = false) as R2
      by (apply Qeq_bool_false; lra).
    rewrite R1. unfold ev at 1 2. cbn [StateTimeline.state time].
    rewrite R2. unfold ev. simpl.
    do 2 eexists. split; [reflexivity|]. lra.
Qed.

(** C5.  The sync-stop bridge, fired with rendering time [r], looks the
    Timeline up at
    [transport.getSecondsAtTime(max(r - 1/sampleRate, 0))]: it invokes
    [_stop(r)] if the Timeline answers [started] there and does nothing
    if it answers [stopped].  It is the function [sync] registers for the
    Transport events [stop], [pause] and [loopEnd]. *)
Theorem syncedStop_bridge_stops (w : World) (r : Q) :
  let seconds :=
    getSecondsAtTime (transport (context w))
      (Math_max (r - 1 / sampleRate (context w)) 0) in
  (getValueAtTime (_state (this w)) seconds = started ->
   syncedStop_body r w = invoke (call_stop r) w)
  /\ (getValueAtTime (_state (this w)) seconds = stopped ->
      syncedStop_body r w = w)
  /\ (invoked (syncedStop_body r w) = invoked w ++ [call_stop r] <->
      getValueAtTime (_state (this w)) seconds = started)
  /\ (forall o, call (_syncedStop (this (sync w))) r o w =
                if _synced (this w)
                then call (_syncedStop (this w)) r o w
                else syncedStop_body r w)
  /\ (_synced (this w) = false ->
      forall event,
        In event ["stop"; "pause"; "loopEnd"]%string ->
        In (_syncedStop (this (sync w)))
          (Transport.listeners event (transport (context (sync w))))).
Proof.
  intros seconds. unfold syncedStop_body, sampleTime. fold seconds.
  split; [intros ->; reflexivity|].
  split; [intros ->; reflexivity|].
  split.
  { destruct (getValueAtTime (_state (this w)) seconds); simpl.
    - split; auto.
    - split; [|discriminate]. intros H.
      apply (f_equal (@List.length _)) in H.
      rewrite length_app in H. simpl in H. lia. }
  split.
  { intros o. unfold sync. destruct (_synced (this w)); reflexivity. }
  intros Hs event Hev. unfold sync. rewrite Hs. simpl.
  unfold Transport.listeners. simpl.
  rewrite !filter_app, !map_app. simpl.
  destruct Hev as [<-|[<-|[<-|[]]]]; simpl;
    repeat (apply in_or_app; simpl; auto; left).
Qed.

(** C6.  The [state] getter: on a synced instance it is the Timeline's
    answer at the Transport's seconds while the Transport is [started],
    and [stopped] otherwise, whatever the Timeline holds; on an instance
    that is not synced it is the Timeline's answer at the rendering
    clock's current time plus the look-ahead. *)
Theorem state_getter_cases (w : World) :
  (_synced (this w) = true ->
   Transport.state (transport (context w)) = Transport.Started ->
   state w = getValueAtTime (_state (this w))
               (Transport.seconds (transport (context w))))
  /\ (_synced (this w) = true ->
      Transport.state (transport (context w)) <> Transport.Started ->
      state w = stopped)
  /\ (_synced (this w) = false ->
      state w = getValueAtTime (_state (this w))
                  (currentTime (context w) + lookAhead (context w))).
Proof.
  unfold state, now. repeat split.
  - intros -> ->. reflexivity.
  - intros -> H.
    destruct (Transport.state (transport (context w)));
      [contradiction| |]; reflexivity.
  - intros ->. reflexivity.
Qed.

(** ** Times recorded in the Timeline *)

Lemma In_insert (e x : StateEvent) (l : list StateEvent) :
  In x (insert e l) -> x = e \/ In x l.
Proof.
  induction l as [|y l IH]; simpl.
  - intros [<-|[]]. now left.
  - destruct (Qeq_bool (time y) (time e)).
    + intros [<-|H]; auto.
    + destruct (Qle_bool (time y) (time e)).
      * intros [<-|H]; auto. destruct (IH H); auto.
      * intros [<-|[<-|H]]; auto.
Qed.

Lemma In_update_found (f : StateEvent -> StateEvent) (x : StateEvent)
    (l : list StateEvent) (tm : Q) :
  In x (update_found f l tm) -> exists y, In y l /\ (x = y \/ x = f y).
Proof.
  induction l as [|y l IH]; simpl; [intros []|].
  destruct (get_events l tm).
  - intros [<-|H]; [exists y; auto|].
    destruct (IH H) as (z & Hz & E). exists z; auto.
  - destruct (Qle_bool (time y) tm).
    + intros [<-|H]; [exists y; auto|exists x; auto].
    + intros [<-|H]; [exists y; auto|exists x; auto].
Qed.

Lemma setStateAtTime_times (P : Q -> Prop) (s : BasicPlaybackState) (tm : Q)
    (tl : StateTimeline.t) :
  P tm -> times_satisfy P tl -> times_satisfy P (setStateAtTime s tm tl).
Proof.
  unfold times_satisfy. rewrite !Forall_forall. intros Ht H x Hx. simpl in Hx.
  apply In_skipn in Hx. apply In_insert in Hx as [->|Hx]; auto.
Qed.

Lemma cancel_times (P : Q -> Prop) (tm : Q) (tl : StateTimeline.t) :
  times_satisfy P tl -> times_satisfy P (cancel tm tl).
Proof.
  unfold times_satisfy. rewrite !Forall_forall. intros H x Hx. simpl in Hx.
  apply filter_In in Hx. apply H. tauto.
Qed.

Lemma update_times (P : Q -> Prop) (o d : option Q) (tm : Q) (tl : StateTimeline.t) :
  times_satisfy P tl -> times_satisfy P (update (set_offset_duration o d) tm tl).
Proof.
  unfold times_satisfy. rewrite !Forall_forall. intros H x Hx. simpl in Hx.
  apply In_update_found in Hx as (y & Hy & [->| ->]); simpl; auto.
Qed.

Lemma start_times (P : Q -> Prop) (time offset duration : option Time) (w : World) :
  P (computedTime time w) ->
  times_satisfy P (_state (this w)) ->
  times_satisfy P (_state (this (start time offset duration w))).
Proof.
  intros Ht H. unfold start. cbv zeta.
  destruct (getValueAtTime (_state (this w)) (computedTime time w)).
  - simpl. apply setStateAtTime_times; [exact Ht|].
    apply cancel_times. exact H.
  - cbn [this with_timeline with_this set_state _synced].
    destruct (_synced (this w)).
    + match goal with
      | |- context [if ?c then call ?g ?a ?b ?x else _] =>
          replace (this (if c then call g a b x else x)) with (this x)
            by (destruct c; [symmetry; apply call_frame|reflexivity])
      end.
      simpl. apply update_times. apply setStateAtTime_times; assumption.
    + simpl. apply setStateAtTime_times; assumption.
Qed.

Lemma stop_times (P : Q -> Prop) (time : option Time) (w : World) :
  P (computedTime time w) ->
  times_satisfy P (_state (this w)) ->
  times_satisfy P (_state (this (stop time w))).
Proof.
  intros Ht H. unfold stop. cbv zeta.
  destruct (_synced (this w)); simpl;
    (apply setStateAtTime_times; [exact Ht|]); apply cancel_times; exact H.
Qed.


Lemma computedTime_nonneg (time : option Time) (w : World) :
  0 <= currentTime (context w) ->
  0 <= Transport.seconds (transport (context w)) ->
  0 <= computedTime time w.
Proof.
  intros Hc Hs. unfold computedTime. destruct (_ && _); [exact Hs|].
  destruct (Math_max_spec (toSeconds (context w) time)
              (currentTime (context w))) as (_ & H & _). lra.
Qed.

(** ** start, stop and sync only add registrations *)

Ltac same_or_more :=
  repeat match goal with
  | |- exists l, ?x = ?x ++ l => exists []; symmetry; apply app_nil_r
  | |- exists l, ?x ++ ?y = ?x ++ l => exists y; reflexivity
  | |- exists l, (_ ++ _) ++ _ = _ ++ l =>
      rewrite <- !app_assoc; eexists; reflexivity
  | |- _ \/ _ => left; reflexivity
  | |- _ = _ => reflexivity
  end.

Lemma start_extends (time offset duration : option Time) (w : World) :
  extends w (start time offset duration w) /\
  _synced (this (start time offset duration w)) = _synced (this w).
Proof.
  unfold start. cbv zeta.
  destruct (getValueAtTime (_state (this w)) (computedTime time w)).
  - split; [constructor|]; simpl; same_or_more.
  - cbn [this with_timeline with_this set_state _synced].
    destruct (_synced (this w)) eqn:Hs.
    + destruct (Transport.PlaybackState_eqb _ _).
      * match goal with
        | |- context [call ?g ?a ?b ?x] =>
            destruct (call_frame g a b x) as (E1 & E2 & _)
        end.
        split; [constructor|]; rewrite ?E1, ?E2; simpl; same_or_more;
          rewrite ?Hs; same_or_more.
      * split; [constructor|]; simpl; same_or_more;
          rewrite ?Hs; same_or_more.
    + split; [constructor|]; simpl; same_or_more; rewrite ?Hs; same_or_more.
Qed.

Lemma stop_extends (time : option Time) (w : World) :
  extends w (stop time w) /\
  _synced (this (stop time w)) = _synced (this w).
Proof.
  unfold stop. cbv zeta.
  destruct (_synced (this w)) eqn:Hs; (split; [constructor|]); simpl;
    same_or_more; rewrite ?Hs; same_or_more.
Qed.

Lemma sync_extends (w : World) :
  extends w (sync w) /\ _synced (this (sync w)) = true.
Proof.
  unfold sync.
  destruct (_synced (this w)) eqn:Hs; (split; [constructor|]); simpl;
    same_or_more; auto.
Qed.

(** ** unsync *)

Lemma Fn_eqb_eq (f g : Fn) : Fn_eqb f g = true <-> f = g.
Proof.
  destruct f, g; simpl; split; intros H;
    try discriminate; try reflexivity;
    try (apply Nat.eqb_eq in H; now subst);
    try (inversion H; subst; apply Nat.eqb_refl).
Qed.

Lemma In_off (event : string) (f : Fn) (T : Transport.t) (p : string * Fn) :
  In p (Transport._events (Transport.off event f T)) <->
  In p (Transport._events T) /\ p <> (event, f).
Proof.
  unfold Transport.off. simpl. rewrite filter_In.
  destruct p as [e g]. simpl.
  destruct (String.eqb e event) eqn:E1; destruct (Fn_eqb g f) eqn:E2; simpl.
  - apply String.eqb_eq in E1. apply Fn_eqb_eq in E2. subst.
    split; [intros [_ H]; discriminate|intros [_ H]; now contradiction H].
  - split; [|tauto]. intros [H _]. split; [exact H|].
    intros C. inversion C; subst.
    assert (Fn_eqb f f = true) by now apply Fn_eqb_eq. congruence.
  - split; [|tauto]. intros [H _]. split; [exact H|].
    intros C. inversion C; subst. rewrite String.eqb_refl in E1. discriminate.
  - split; [|tauto]. intros [H _]. split; [exact H|].
    intros C. inversion C; subst. rewrite String.eqb_refl in E1. discriminate.
Qed.

Lemma In_off_bridges (s : Source) (T : Transport.t) (p : string * Fn) :
  In p (Transport._events (off_bridges s T)) <->
  In p (Transport._events T) /\ ~ In p (bridge_listeners s).
Proof.
  unfold off_bridges. rewrite !In_off. unfold bridge_listeners. simpl.
  split.
  - intros (((((H & H1) & H2) & H3) & H4) & H5). split; [exact H|].
    intros [C|[C|[C|[C|[C|[]]]]]]; symmetry in C; contradiction.
  - intros [H N]. repeat split; auto; intros C; apply N; rewrite C; auto 6.
Qed.

Lemma clear_all_frame (ids : list nat) (T : Transport.t) :
  Transport._events (clear_all ids T) = Transport._events T /\
  Transport.seconds (clear_all ids T) = Transport.seconds T /\
  Transport.state (clear_all ids T) = Transport.state T /\
  Transport._eventID (clear_all ids T) = Transport._eventID T.
Proof.
  unfold clear_all. revert T. induction ids as [|i ids IH]; intros T; simpl.
  - repeat split.
  - destruct (IH (Transport.clear i T)) as (-> & -> & -> & ->).
    repeat split.
Qed.

Lemma In_clear_all (ids : list nat) (T : Transport.t)
    (e : Transport.TransportEvent) :
  In e (Transport._timeline (clear_all ids T)) <->
  In e (Transport._timeline T) /\ ~ In (Transport.id e) ids.
Proof.
  unfold clear_all. revert T. induction ids as [|i ids IH]; intros T; simpl.
  - tauto.
  - rewrite IH. unfold Transport.clear. simpl. rewrite filter_In.
    destruct (Nat.eqb (Transport.id e) i) eqn:E; simpl.
    + apply Nat.eqb_eq in E. split; [intros [[_ H] _]; discriminate|].
      intros [_ H]. exfalso. apply H. auto.
    + apply Nat.eqb_neq in E. split.
      * intros [[H _] N]. split; [exact H|]. intros [C|C]; auto.
      * intros [H N]. split; [split; auto|]. intros C. apply N. auto.
Qed.

Lemma clear_all_registered (ids : list nat) (T : Transport.t) (i : nat) :
  In i ids -> Transport.registered i (clear_all ids T) = false.
Proof.
  intros Hi. unfold Transport.registered.
  destruct (existsb _ _) eqn:E; [|reflexivity].
  apply existsb_exists in E as (e & He & Hid).
  apply Nat.eqb_eq in Hid. subst i.
  apply In_clear_all in He. tauto.
Qed.

Lemma fold_clear_world (ids : list nat) (w : World) :
  fold_left (fun w' i => with_transport (Transport.clear i) w') ids w =
  with_transport (clear_all ids) w.
Proof.
  revert w. induction ids as [|i ids IH]; intros w; simpl.
  - destruct w as [s [c l r T] i k]. reflexivity.
  - rewrite IH. reflexivity.
Qed.

(** [unsync] in one piece. *)
Lemma unsync_unfold (w : World) :
  unsync w =
  with_timeline (cancel 0)
    (with_this (fun s => set_scheduled [] (set_synced false s))
       (with_transport
          (fun T =>
             clear_all (_scheduled (this w))
               (if _synced (this w) then off_bridges (this w) T else T))
          w)).
Proof.
  unfold unsync. cbv zeta. rewrite fold_clear_world.
  destruct w as [s [c l r T] i k]. simpl.
  destruct (_synced s); reflexivity.
Qed.

Lemma cancel_0_nonneg (tl : StateTimeline.t) :
  Forall (fun e => 0 <= time e) (_timeline tl) ->
  _timeline (cancel 0 tl) = [].
Proof.
  intros H. simpl. apply filter_none.
  eapply Forall_impl; [|exact H]. simpl. intros e He.
  apply Qle_bool_iff in He. now rewrite He.
Qed.

(** ** Runs of a synced instance *)

Lemma run_callback_frame (cb : Callback) (tm : Q) (w : World) :
  this (run_callback cb tm w) = this w /\
  context (run_callback cb tm w) = context w.
Proof. destruct cb; split; reflexivity. Qed.

Lemma step_invariant (w0 w : World) (s : Step) :
  plausible s -> synced_invariant w0 w -> synced_invariant w0 (step s w).
Proof.
  intros Hp [Hs Hb He Ht Hc Hsec].
  destruct s as [tm o d|tm| |c' s' st'|ev tm o|cb tm]; simpl.
  - destruct (start_extends tm o d w) as [[B1 B2 E1 E2 [l1 E3] _ _] S].
    constructor.
    + now rewrite S.
    + unfold bridge_listeners in *.
      destruct B1 as [->|C]; [|congruence].
      destruct B2 as [->|C]; [|congruence]. exact Hb.
    + intros p Hp'. rewrite E3. apply in_or_app. left. now apply He.
    + apply start_times; [|exact Ht]. now apply computedTime_nonneg.
    + now rewrite E1.
    + now rewrite E2.
  - destruct (stop_extends tm w) as [[B1 B2 E1 E2 [l1 E3] _ _] S].
    constructor.
    + now rewrite S.
    + unfold bridge_listeners in *.
      destruct B1 as [->|C]; [|congruence].
      destruct B2 as [->|C]; [|congruence]. exact Hb.
    + intros p Hp'. rewrite E3. apply in_or_app. left. now apply He.
    + apply stop_times; [|exact Ht]. now apply computedTime_nonneg.
    + now rewrite E1.
    + now rewrite E2.
  - unfold sync. rewrite Hs. simpl. now constructor.
  - destruct Hp as [Hp1 Hp2]. constructor; simpl; auto.
  - unfold emit.
    destruct (emit_frame (Transport.listeners ev (transport (context w)))
                tm o w) as [E1 E2].
    constructor; rewrite ?E1, ?E2; auto.
  - destruct (run_callback_frame cb tm w) as [E1 E2].
    constructor; rewrite ?E1, ?E2; auto.
Qed.

Lemma run_invariant (w0 : World) (steps : list Step) (w : World) :
  Forall plausible steps ->
  synced_invariant w0 w -> synced_invariant w0 (run steps w).
Proof.
  unfold run. intros H. revert w.
  induction H as [|s steps Hs _ IH]; intros w Hw; simpl; [exact Hw|].
  apply IH. now apply step_invariant.
Qed.

Lemma sync_new_invariant (m : bool) (f : Fn) (c : Context) :
  0 <= currentTime c ->
  0 <= Transport.seconds (transport c) ->
  synced_invariant (sync (new_World m f c)) (sync (new_World m f c)).
Proof.
  intros Hc Hs. constructor; simpl; auto.
Qed.

(** C7.  After [sync()] on a new instance and any sequence of [start],
    [stop] and [sync] calls, interleaved with the clocks moving and the
    Transport announcing events or running callbacks, one [unsync()]
    removes the five listeners that [sync] installed (and no other
    listener), clears every tracked identifier from the Transport, empties
    the tracked list, leaves the Timeline without any event, so that it
    answers [stopped] at every time, and clears the synced flag. *)
Theorem unsync_after_sync_resets
    (m : bool) (f : Fn) (c0 : Context) (steps : list Step) :
  0 <= currentTime c0 ->
  0 <= Transport.seconds (transport c0) ->
  Forall plausible steps ->
  let w := run steps (sync (new_World m f c0)) in
  let w' := unsync w in
  bridge_listeners (this w) =
    [("start"%string, SyncedStartFn 0); ("loopStart"%string, SyncedStartFn 0);
     ("stop"%string, SyncedStopFn 1); ("pause"%string, SyncedStopFn 1);
     ("loopEnd"%string, SyncedStopFn 1)]
  /\ (forall p, In p (bridge_listeners (this w)) ->
                In p (Transport._events (transport (context w))) /\
                ~ In p (Transport._events (transport (context w'))))
  /\ (forall p, In p (Transport._events (transport (context w))) ->
                ~ In p (bridge_listeners (this w)) ->
                In p (Transport._events (transport (context w'))))
  /\ (forall i, In i (_scheduled (this w)) ->
                Transport.registered i (transport (context w')) = false)
  /\ _scheduled (this w') = []
  /\ _timeline (_state (this w')) = []
  /\ (forall tm, getValueAtTime (_state (this w')) tm = stopped)
  /\ _synced (this w') = false.
Proof.
  intros Hc Hs Hp w w'.
  destruct (run_invariant _ steps _ Hp (sync_new_invariant m f c0 Hc Hs))
    as [Isync Ibr Iev Itimes _ _].
  fold w in Isync, Ibr, Iev, Itimes.
  assert (_timeline (_state (this w')) = []) as Hempty.
  { unfold w'. rewrite unsync_unfold. simpl.
    apply (cancel_0_nonneg (_state (this w))). exact Itimes. }
  assert (forall p, In p (Transport._events (transport (context w'))) <->
                    In p (Transport._events (transport (context w))) /\
                    ~ In p (bridge_listeners (this w))) as Hev.
  { intros p. unfold w'. rewrite unsync_unfold. simpl. rewrite Isync.
    destruct (clear_all_frame (_scheduled (this w))
                (off_bridges (this w) (transport (context w))))
      as (-> & _).
    apply In_off_bridges. }
  split; [rewrite Ibr; reflexivity|].
  split.
  { intros p Hp'. split; [|rewrite Hev; tauto].
    apply Iev. rewrite Ibr in Hp'. simpl.
    unfold bridge_listeners in Hp'. simpl in Hp'.
    rewrite <- !app_assoc. apply in_or_app. right. simpl. tauto. }
  split; [intros p H1 H2; apply Hev; tauto|].
  split.
  { intros i Hi. unfold w'. rewrite unsync_unfold. simpl.
    now apply clear_all_registered. }
  split; [unfold w'; rewrite unsync_unfold; reflexivity|].
  split; [exact Hempty|].
  split.
  { intros tm. unfold getValueAtTime, get. rewrite Hempty. reflexivity. }
  unfold w'. rewrite unsync_unfold. reflexivity.
Qed.

(** ** Redundant sync and unsync *)

Lemma dispose_tracks_nothing (w : World) :
  _scheduled (this (dispose w)) = [].
Proof. unfold dispose. cbv zeta. rewrite unsync_unfold. reflexivity. Qed.

Lemma cancel_idempotent (tm : Q) (tl : StateTimeline.t) :
  cancel tm (cancel tm tl) = cancel tm tl.
Proof.
  unfold cancel. simpl. f_equal.
  apply cancel_keeps_earlier, cancel_all_earlier.
Qed.

Lemma unsync_not_synced (w : World) :
  _synced (this w) = false ->
  _scheduled (this w) = [] ->
  unsync w = with_timeline (cancel 0) w.
Proof.
  intros Hs Hn. rewrite unsync_unfold, Hs, Hn.
  destruct w as [[v o tl sy sc f g] [c l r T] i k].
  simpl in *. subst. reflexivity.
Qed.

(** An instance that is not synced tracks no identifier. *)
Lemma not_synced_tracks_nothing (w : World) :
  reachable w -> _synced (this w) = false -> _scheduled (this w) = [].
Proof.
  induction 1 as [m f c|w tm o d _ IH|w tm _ IH|w _ IH|w _ IH|w _ IH
                  |w c s st _ IH|w ev tm o _ IH|w cb tm _ IH]; intros Hs.
  - reflexivity.
  - destruct (start_extends tm o d w) as [_ S]. rewrite S in Hs.
    rewrite <- (IH Hs). unfold start. cbv zeta.
    destruct (getValueAtTime _ _); simpl; rewrite ?Hs; reflexivity.
  - destruct (stop_extends tm w) as [_ S]. rewrite S in Hs.
    rewrite <- (IH Hs). unfold stop. cbv zeta. rewrite Hs. reflexivity.
  - destruct (sync_extends w) as [_ S]. congruence.
  - rewrite unsync_unfold. reflexivity.
  - apply dispose_tracks_nothing.
  - apply IH. exact Hs.
  - unfold emit in *.
    destruct (emit_frame (Transport.listeners ev (transport (context w)))
                tm o w) as [E _].
    rewrite E in *. now apply IH.
  - destruct (run_callback_frame cb tm w) as [E _]. rewrite E in *.
    now apply IH.
Qed.

(** C8 (amended).  [sync()] on a synced instance changes nothing.
    [unsync()] on an instance that is not synced leaves the synced flag
    and the Transport's listeners as they are and leaves nothing tracked,
    but it still cancels the Timeline from time 0: on an instance a
    program can build, which tracks nothing while it is not synced, that is
    its whole effect.  A second [unsync()] right after [unsync()] changes
    nothing. *)
Theorem redundant_sync_unsync (w : World) :
  (_synced (this w) = true -> sync w = w)
  /\ (_synced (this w) = false ->
      _synced (this (unsync w)) = false /\
      Transport._events (transport (context (unsync w))) =
        Transport._events (transport (context w)) /\
      _scheduled (this (unsync w)) = [] /\
      _state (this (unsync w)) = cancel 0 (_state (this w)) /\
      (reachable w -> unsync w = with_timeline (cancel 0) w))
  /\ unsync (unsync w) = unsync w.
Proof.
  split; [|split].
  - intros Hs. unfold sync. now rewrite Hs.
  - intros Hs. split; [|split; [|split; [|split]]].
    + rewrite unsync_unfold. reflexivity.
    + rewrite unsync_unfold, Hs. simpl. apply clear_all_frame.
    + rewrite unsync_unfold. reflexivity.
    + rewrite unsync_unfold. reflexivity.
    + intros Hr. apply unsync_not_synced; [exact Hs|].
      now apply not_synced_tracks_nothing.
  - rewrite (unsync_not_synced (unsync w));
      [|rewrite unsync_unfold; reflexivity ..].
    rewrite unsync_unfold.
    unfold with_timeline, with_this. simpl.
    rewrite cancel_idempotent. reflexivity.
Qed.

(** ** dispose *)

Lemma dispose_facts (w : World) :
  _scheduled (this (dispose w)) = [] /\
  (forall i, In i (_scheduled (this w)) ->
             Transport.registered i (transport (context (dispose w))) = false).
Proof.
  unfold dispose. cbv zeta. rewrite unsync_unfold. simpl.
  split; [reflexivity|]. intros i Hi. now apply clear_all_registered.
Qed.

(** C9 (amended).  After [dispose()] nothing this instance registered
    survives on the Transport: the instance is not synced and tracks no
    identifier, every identifier it tracked is cleared from the Transport,
    the five listeners of a synced instance are removed, the Timeline holds
    no event, [onstop] is the placeholder and the volume stage is disposed.
    Source itself rejects no call on a disposed instance: every method
    still returns. *)
Theorem dispose_clears_registrations (w : World) :
  let w' := dispose w in
  _synced (this w') = false
  /\ _scheduled (this w') = []
  /\ (forall i, In i (_scheduled (this w)) ->
                Transport.registered i (transport (context w')) = false)
  /\ (_synced (this w) = true ->
      forall p, In p (bridge_listeners (this w)) ->
                ~ In p (Transport._events (transport (context w'))))
  /\ (forall p, In p (Transport._events (transport (context w'))) ->
                In p (Transport._events (transport (context w))))
  /\ _timeline (_state (this w')) = []
  /\ onstop (this w') = noOp
  /\ Volume_disposed (_volume (this w')) = true
  /\ (forall m, exists w'', call_method m w' = Returns w'').
Proof.
  intros w'. unfold w', dispose. cbv zeta. rewrite unsync_unfold.
  cbn [this context with_this with_timeline with_transport set_onstop
       set_state set_synced set_scheduled set_volume set_transport
       _synced _scheduled _state _volume onstop _syncedStart _syncedStop
       transport Volume_disposed].
  split; [reflexivity|]. split; [reflexivity|].
  split; [intros i Hi; now apply clear_all_registered|].
  split.
  { intros Hs p Hp. rewrite Hs.
    match goal with
    | |- ~ In p (Transport._events (clear_all ?ids ?T)) =>
        destruct (clear_all_frame ids T) as (-> & _)
    end.
    intros C. apply In_off_bridges in C. destruct C as [_ C]. apply C.
    exact Hp. }
  split.
  { intros p.
    match goal with
    | |- In p (Transport._events (clear_all ?ids ?T)) -> _ =>
        destruct (clear_all_frame ids T) as (-> & _)
    end.
    destruct (_synced (this w)); [|auto].
    intros C. apply In_off_bridges in C. tauto. }
  split; [reflexivity|]. split; [reflexivity|]. split; [reflexivity|].
  intros m. destruct m; eexists; reflexivity.
Qed.

(** ** Registrations outlive cancellation *)

Lemma at_or_after_cancel_then_set (s : BasicPlaybackState) (tm : Q)
    (tl : StateTimeline.t) :
  (1 <= memory tl)%nat ->
  at_or_after tm (setStateAtTime s tm (cancel tm tl)) =
  [mkEvent tm s None None None].
Proof.
  intros Hmem.
  destruct (cancel_then_set s tm tl Hmem) as (l & El & Hlt & _).
  unfold at_or_after. rewrite El, filter_app. simpl.
  rewrite filter_none.
  - assert (Qle_bool tm tm = true) as R by (apply Qle_bool_iff; lra).
    now rewrite R.
  - eapply Forall_impl; [|exact Hlt]. simpl. intros x Hx.
    now apply Qle_bool_false.
Qed.

Lemma extends_keeps (w w' : World) :
  extends w w' -> keeps_registrations w w'.
Proof.
  intros [_ _ _ _ _ [l1 E1] [l2 E2]]. split.
  - intros i Hi. rewrite E1. apply in_or_app. now left.
  - intros e He. rewrite E2. apply in_or_app. now left.
Qed.

Lemma keeps_registrations_refl (w : World) : keeps_registrations w w.
Proof. split; auto. Qed.

Lemma keeps_registrations_trans (w1 w2 w3 : World) :
  keeps_registrations w1 w2 -> keeps_registrations w2 w3 ->
  keeps_registrations w1 w3.
Proof. intros [A B] [C D]. split; auto. Qed.

Lemma step_keeps_registrations (s : Step) (w : World) :
  keeps_registrations w (step s w).
Proof.
  destruct s as [tm o d|tm| |c' s' st'|ev tm o|cb tm]; simpl.
  - apply extends_keeps, start_extends.
  - apply extends_keeps, stop_extends.
  - apply extends_keeps, sync_extends.
  - split; auto.
  - unfold emit, keeps_registrations.
    destruct (emit_frame (Transport.listeners ev (transport (context w)))
                tm o w) as [-> ->]. auto.
  - unfold keeps_registrations.
    destruct (run_callback_frame cb tm w) as [-> ->]. auto.
Qed.

Lemma run_keeps_registrations (steps : list Step) (w : World) :
  keeps_registrations w (run steps w).
Proof.
  unfold run. revert w. induction steps as [|s steps IH]; intros w; simpl.
  - apply keeps_registrations_refl.
  - eapply keeps_registrations_trans; [apply step_keeps_registrations|].
    apply IH.
Qed.

(** C10.  No call of [start], [stop] or [sync], and nothing the clocks or
    the Transport do, removes an identifier from the tracked list or a
    callback from the Transport.  In particular, on a synced instance
    [stop(t)] leaves the Timeline with the [stopped] event alone at or
    after its effective time, and a restarting [start(t)] leaves it with
    the [started] event alone, cancelling whatever was recorded there,
    while every callback registered before stays registered.  Only
    [unsync()], and [dispose()] through it, empties the tracked list and
    clears the tracked identifiers. *)
Theorem registrations_outlive_cancellation :
  (forall steps w, keeps_registrations w (run steps w))
  /\ (forall w tm,
        _synced (this w) = true ->
        (1 <= memory (_state (this w)))%nat ->
        let t := computedTime tm w in
        at_or_after t (_state (this (stop tm w))) =
          [mkEvent t stopped None None None] /\
        keeps_registrations w (stop tm w))
  /\ (forall w tm o d,
        getValueAtTime (_state (this w)) (computedTime tm w) = started ->
        (1 <= memory (_state (this w)))%nat ->
        let t := computedTime tm w in
        at_or_after t (_state (this (start tm o d w))) =
          [mkEvent t started None None None] /\
        keeps_registrations w (start tm o d w) /\
        context (start tm o d w) = context w)
  /\ (forall w,
        _scheduled (this (unsync w)) = [] /\
        _scheduled (this (dispose w)) = [] /\
        forall i, In i (_scheduled (this w)) ->
          Transport.registered i (transport (context (unsync w))) = false /\
          Transport.registered i (transport (context (dispose w))) = false).
Proof.
  split; [exact run_keeps_registrations|].
  split; [|split].
  - intros w tm Hs Hmem t. split.
    + unfold stop. cbv zeta. fold t. rewrite Hs. simpl.
      now apply at_or_after_cancel_then_set.
    + apply extends_keeps, stop_extends.
  - intros w tm o d Hst Hmem t. split; [|split].
    + unfold start. cbv zeta. rewrite Hst. fold t. simpl.
      now apply at_or_after_cancel_then_set.
    + apply extends_keeps, start_extends.
    + unfold start. cbv zeta. rewrite Hst. reflexivity.
  - intros w.
    destruct (dispose_facts w) as (D1 & D2).
    split; [rewrite unsync_unfold; reflexivity|].
    split; [exact D1|].
    intros i Hi. split; [|now apply D2].
    rewrite unsync_unfold. simpl. now apply clear_all_registered.
Qed.

(** * Further properties of the methods *)

(** ** What an instance that is not synced does *)

(** Called on an instance that is not synced, [start] and [stop] leave the
    context, and so the Transport, as it is and track nothing; [start]
    invokes exactly one primitive, [_start] or [restart], and [stop]
    invokes [_stop], each with the effective time and the arguments as
    given. *)
Theorem not_synced_calls_bypass_transport
    (w : World) (time offset duration : option Time) :
  _synced (this w) = false ->
  let t := computedTime time w in
  (context (start time offset duration w) = context w /\
   _scheduled (this (start time offset duration w)) = _scheduled (this w) /\
   (invoked (start time offset duration w) =
      invoked w ++ [call_start t offset duration] \/
    invoked (start time offset duration w) =
      invoked w ++ [call_restart t offset duration]))
  /\ (context (stop time w) = context w /\
      _scheduled (this (stop time w)) = _scheduled (this w) /\
      invoked (stop time w) = invoked w ++ [call_stop t]).
Proof.
  intros Hs t. split.
  - unfold start. cbv zeta. fold t.
    destruct (getValueAtTime (_state (this w)) t); simpl.
    + repeat split; auto.
    + rewrite Hs. simpl. repeat split; auto.
  - unfold stop. cbv zeta. fold t. rewrite Hs. simpl. repeat split.
Qed.

(** ** What the bridges and the housekeeping methods never do *)

Lemma call_invocations (f : Fn) (r o : Q) (w : World) :
  exists l, invoked (call f r o w) = invoked w ++ l /\
            Forall (fun i => Invocation_time i = r) l.
Proof.
  destruct f; simpl; try (exists []; split; [symmetry; apply app_nil_r|constructor]).
  - unfold syncedStart_body.
    destruct (negb (Qle_bool o 0));
      [|exists []; split; [symmetry; apply app_nil_r|constructor]].
    destruct (get (_state (this w)) o) as [e|];
      [|exists []; split; [symmetry; apply app_nil_r|constructor]].
    destruct (_ && _);
      [|exists []; split; [symmetry; apply app_nil_r|constructor]].
    eexists. split; [reflexivity|]. repeat constructor.
  - unfold syncedStop_body.
    destruct (getValueAtTime _ _);
      [|exists []; split; [symmetry; apply app_nil_r|constructor]].
    eexists. split; [reflexivity|]. repeat constructor.
Qed.

(** Whatever event the Transport announces, with rendering time [r], the
    listeners leave the instance (Timeline, synced flag, tracked list) and
    the context untouched; all they do is invoke primitives, and every
    primitive they invoke is invoked with the time [r]. *)
Theorem bridges_only_invoke_primitives
    (event : string) (r o : Q) (w : World) :
  this (emit event r o w) = this w /\
  context (emit event r o w) = context w /\
  exists l, invoked (emit event r o w) = invoked w ++ l /\
            Forall (fun i => Invocation_time i = r) l.
Proof.
  unfold emit.
  split; [apply emit_frame|]. split; [apply emit_frame|].
  generalize (Transport.listeners event (transport (context w))).
  intros fs. revert w. induction fs as [|f fs IH]; intros w; simpl.
  - exists []. split; [symmetry; apply app_nil_r|constructor].
  - destruct (IH (call f r o w)) as (l2 & E2 & F2).
    destruct (call_invocations f r o w) as (l1 & E1 & F1).
    exists (l1 ++ l2). split.
    + rewrite E2, E1, app_assoc. reflexivity.
    + apply Forall_app. split; assumption.
Qed.

(** [sync], [unsync] and [dispose] invoke no primitive of the concrete
    unit: neither [unsync()] nor [dispose()] stops a source that is
    playing.  [sync] does not touch the Timeline either. *)
Theorem housekeeping_invokes_no_primitive (w : World) :
  invoked (sync w) = invoked w /\
  _state (this (sync w)) = _state (this w) /\
  invoked (unsync w) = invoked w /\
  invoked (dispose w) = invoked w.
Proof.
  split; [|split; [|split]].
  - unfold sync. destruct (negb _); reflexivity.
  - unfold sync. destruct (negb _); reflexivity.
  - rewrite unsync_unfold. reflexivity.
  - unfold dispose. cbv zeta. rewrite unsync_unfold. reflexivity.
Qed.

(** ** The clock getters of ToneWithContext *)


(** ** The last call wins *)

Lemma getValueAtTime_cancel_then_set (s : BasicPlaybackState) (a tm : Q)
    (tl : StateTimeline.t) :
  (1 <= memory tl)%nat ->
  a <= tm ->
  getValueAtTime (setStateAtTime s a (cancel a tl)) tm = s.
Proof.
  intros Hmem Hle.
  destruct (cancel_then_set s a tl Hmem) as (l & El & _ & _).
  unfold getValueAtTime, get. rewrite El, get_events_app. simpl.
  apply Qle_bool_iff in Hle. rewrite Hle. reflexivity.
Qed.

Lemma stop_timeline (time : option Time) (w : World) :
  _state (this (stop time w)) =
  setStateAtTime stopped (computedTime time w)
    (cancel (computedTime time w) (_state (this w))).
Proof.
  unfold stop. cbv zeta. destruct (_synced (this w)); reflexivity.
Qed.

(** After [stop], synced or not, the Timeline answers [stopped] at every
    time from the effective time on, whatever had been scheduled there;
    after a [start] that found the Timeline [started] at its effective
    time, it answers [started] from there on.  On an instance that is not
    synced the [state] getter therefore reads [stopped] as soon as the
    rendering clock, look-ahead included, has reached the effective time
    of the [stop]. *)
Theorem last_call_wins (w : World) (time offset duration : option Time) :
  (1 <= memory (_state (this w)))%nat ->
  let t := computedTime time w in
  (forall tm, t <= tm ->
     getValueAtTime (_state (this (stop time w))) tm = stopped)
  /\ (getValueAtTime (_state (this w)) t = started ->
      forall tm, t <= tm ->
        getValueAtTime (_state (this (start time offset duration w))) tm
        = started)
  /\ (_synced (this w) = false ->
      forall c, t <= now c ->
        state (set_context c (stop time w)) = stopped).
Proof.
  intros Hmem t. split; [|split].
  - intros tm Htm. rewrite stop_timeline.
    now apply getValueAtTime_cancel_then_set.
  - intros Hst tm Htm. unfold start. cbv zeta. fold t. rewrite Hst. simpl.
    now apply getValueAtTime_cancel_then_set.
  - intros Hs c Hc. unfold state.
    destruct (stop_extends time w) as [_ S].
    cbn [this set_context context]. rewrite S, Hs, stop_timeline.
    now apply getValueAtTime_cancel_then_set.
Qed.






(** ** A synced start is resumed mid-stream *)




Lemma start_keeps_fields (tm offset duration : option Time) (w : World) :
  _synced (this (start tm offset duration w)) = _synced (this w) /\
  _syncedStart (this (start tm offset duration w)) = _syncedStart (this w) /\
  _syncedStop (this (start tm offset duration w)) = _syncedStop (this w) /\
  Transport._events (transport (context (start tm offset duration w))) =
    Transport._events (transport (context w)) /\
  closures (start tm offset duration w) = closures w.
Proof.
  unfold start. cbv zeta.
  destruct (getValueAtTime (_state (this w)) (computedTime tm w)).
  - repeat split.
  - cbn [this with_timeline with_this set_state _synced].
    destruct (_synced (this w)) eqn:Hs;
      [|simpl; rewrite ?Hs; repeat split].
    destruct (Transport.PlaybackState_eqb _ _);
      [|simpl; rewrite ?Hs; repeat split].
    match goal with
    | |- context [call ?g ?a ?b ?x] =>
        destruct (call_frame g a b x) as (E1 & E2 & E3)
    end.
    rewrite E1, E2, E3. simpl. rewrite ?Hs. repeat split.
Qed.

Lemma stop_keeps_fields (tm : option Time) (w : World) :
  _synced (this (stop tm w)) = _synced (this w) /\
  _syncedStart (this (stop tm w)) = _syncedStart (this w) /\
  _syncedStop (this (stop tm w)) = _syncedStop (this w) /\
  Transport._events (transport (context (stop tm w))) =
    Transport._events (transport (context w)) /\
  closures (stop tm w) = closures w.
Proof.
  unfold stop. cbv zeta.
  destruct (_synced (this w)) eqn:Hs; simpl; rewrite ?Hs; repeat split.
Qed.

(** While an instance a program can build is synced, its two bridges are
    the closures [sync] made. *)
Lemma synced_bridges_are_closures (w : World) :
  reachable w ->
  _synced (this w) = true ->
  exists k, _syncedStart (this w) = SyncedStartFn k /\
            _syncedStop (this w) = SyncedStopFn (S k).
Proof.
  induction 1 as [m f c|w tm o d _ IH|w tm _ IH|w _ IH|w _ IH|w _ IH
                  |w c s st _ IH|w ev tm o _ IH|w cb tm _ IH]; intros Hs.
  - discriminate.
  - destruct (start_keeps_fields tm o d w) as (E1 & E2 & E3 & _).
    rewrite E1 in Hs. rewrite E2, E3. auto.
  - destruct (stop_keeps_fields tm w) as (E1 & E2 & E3 & _).
    rewrite E1 in Hs. rewrite E2, E3. auto.
  - unfold sync in *. destruct (_synced (this w)) eqn:S0; simpl in *.
    + auto.
    + eexists. split; reflexivity.
  - rewrite unsync_unfold in Hs. discriminate.
  - unfold dispose in Hs. cbv zeta in Hs. rewrite unsync_unfold in Hs.
    discriminate.
  - apply IH. exact Hs.
  - unfold emit in *.
    destruct (emit_frame (Transport.listeners ev (transport (context w)))
                tm o w) as [E _].
    rewrite E in *. auto.
  - destruct (run_callback_frame cb tm w) as [E _]. rewrite E in *. auto.
Qed.



(** ** Nothing dangles on the Transport *)

Lemma evolves_reachable (w0 w : World) :
  reachable w0 -> evolves w0 w -> reachable w.
Proof.
  intros H0. induction 1 as [|w w' m _ IH Hm|w s _ IH]; [exact H0| |].
  - destruct m; simpl in Hm; inversion Hm; subst; now constructor.
  - destruct s; simpl; now constructor.
Qed.

Lemma start_registration (tm offset duration : option Time) (w : World) :
  (Transport._timeline (transport (context (start tm offset duration w))) =
     Transport._timeline (transport (context w)) /\
   _scheduled (this (start tm offset duration w)) = _scheduled (this w))
  \/
  (exists e,
     Transport._timeline (transport (context (start tm offset duration w))) =
       Transport._timeline (transport (context w)) ++ [e] /\
     _scheduled (this (start tm offset duration w)) =
       _scheduled (this w) ++ [Transport.id e]).
Proof.
  unfold start. cbv zeta.
  destruct (getValueAtTime (_state (this w)) (computedTime tm w)).
  - left. split; reflexivity.
  - cbn [this with_timeline with_this set_state _synced].
    destruct (_synced (this w)) eqn:Hs;
      [|left; simpl; rewrite ?Hs; split; reflexivity].
    right.
    destruct (Transport.PlaybackState_eqb _ _).
    + match goal with
      | |- context [call ?g ?a ?b ?x] =>
          destruct (call_frame g a b x) as (E1 & E2 & _)
      end.
      rewrite E1, E2. eexists. split; reflexivity.
    + eexists. split; reflexivity.
Qed.

Lemma stop_registration (tm : option Time) (w : World) :
  (Transport._timeline (transport (context (stop tm w))) =
     Transport._timeline (transport (context w)) /\
   _scheduled (this (stop tm w)) = _scheduled (this w))
  \/
  (exists e,
     Transport._timeline (transport (context (stop tm w))) =
       Transport._timeline (transport (context w)) ++ [e] /\
     _scheduled (this (stop tm w)) =
       _scheduled (this w) ++ [Transport.id e]).
Proof.
  unfold stop. cbv zeta. destruct (_synced (this w)) eqn:Hs; simpl.
  - right. eexists. split; reflexivity.
  - left. split; reflexivity.
Qed.

Lemma registration_keeps_tracked (w w' : World) :
  (Transport._timeline (transport (context w')) =
     Transport._timeline (transport (context w)) /\
   _scheduled (this w') = _scheduled (this w))
  \/
  (exists e,
     Transport._timeline (transport (context w')) =
       Transport._timeline (transport (context w)) ++ [e] /\
     _scheduled (this w') = _scheduled (this w) ++ [Transport.id e]) ->
  tracked_is_authoritative w -> tracked_is_authoritative w'.
Proof.
  unfold tracked_is_authoritative.
  intros [[E1 E2]|(e0 & E1 & E2)] H e He Hown; rewrite E1 in He; rewrite E2.
  - auto.
  - apply in_or_app. apply in_app_or in He as [He|[<-|[]]].
    + left. auto.
    + right. simpl. auto.
Qed.

Lemma unsync_drops_own_callbacks (w : World) :
  tracked_is_authoritative w ->
  own_callbacks (transport (context (unsync w))) = [].
Proof.
  intros H. rewrite unsync_unfold. simpl. unfold own_callbacks.
  apply filter_none. apply Forall_forall. intros e He.
  apply In_clear_all in He as [He Hn].
  destruct (own_callback (Transport.callback e)) eqn:Hown; [|reflexivity].
  exfalso. apply Hn. apply H; [|exact Hown].
  destruct (_synced (this w)); exact He.
Qed.

Lemma no_own_callbacks_tracked (w : World) :
  own_callbacks (transport (context w)) = [] -> tracked_is_authoritative w.
Proof.
  intros H e He Hown.
  assert (In e (own_callbacks (transport (context w)))) as C
    by (apply filter_In; auto).
  rewrite H in C. destruct C.
Qed.

Lemma dispose_as_unsync (w : World) :
  context (dispose w) = context (unsync w) /\
  _synced (this (dispose w)) = false /\
  _scheduled (this (dispose w)) = [] /\
  _syncedStart (this (dispose w)) = _syncedStart (this w) /\
  _syncedStop (this (dispose w)) = _syncedStop (this w).
Proof.
  unfold dispose. cbv zeta. rewrite !unsync_unfold. repeat split.
Qed.

Lemma step_keeps_tracked (s : Step) (w : World) :
  tracked_is_authoritative w -> tracked_is_authoritative (step s w).
Proof.
  destruct s as [tm o d|tm| |c' s' st'|ev tm o|cb tm]; simpl.
  - apply registration_keeps_tracked, start_registration.
  - apply registration_keeps_tracked, stop_registration.
  - apply registration_keeps_tracked. left.
    unfold sync. destruct (negb _); split; reflexivity.
  - auto.
  - unfold emit, tracked_is_authoritative.
    destruct (emit_frame (Transport.listeners ev (transport (context w)))
                tm o w) as [-> ->]. auto.
  - unfold tracked_is_authoritative.
    destruct (run_callback_frame cb tm w) as [-> ->]. auto.
Qed.

Lemma method_keeps_tracked (m : Method) (w w' : World) :
  call_method m w = Returns w' ->
  tracked_is_authoritative w -> tracked_is_authoritative w'.
Proof.
  destruct m as [tm o d|tm| | |]; simpl; intros Hm H;
    inversion Hm; subst; clear Hm.
  - apply (step_keeps_tracked (do_start tm o d)). exact H.
  - apply (step_keeps_tracked (do_stop tm)). exact H.
  - apply (step_keeps_tracked do_sync). exact H.
  - apply no_own_callbacks_tracked. now apply unsync_drops_own_callbacks.
  - apply no_own_callbacks_tracked.
    destruct (dispose_as_unsync w) as (-> & _).
    now apply unsync_drops_own_callbacks.
Qed.

(** The tracked list is authoritative.  Take a new instance on a Transport
    that holds no [_start]/[_stop] callback yet.  Whatever the program
    does with it, every such callback on the Transport has its identifier
    in the tracked list; so a call of [unsync()] or of [dispose()] at any
    point leaves no callback of the instance on the Transport. *)
Theorem no_callback_dangles
    (m : bool) (f : Fn) (c0 : Context) (w : World) :
  own_callbacks (transport c0) = [] ->
  evolves (new_World m f c0) w ->
  tracked_is_authoritative w /\
  own_callbacks (transport (context (unsync w))) = [] /\
  own_callbacks (transport (context (dispose w))) = [].
Proof.
  intros H0 Hev.
  assert (tracked_is_authoritative w) as H.
  { induction Hev as [|w w' mth _ IH Hm|w s _ IH].
    - now apply no_own_callbacks_tracked.
    - now apply (method_keeps_tracked mth w w').
    - now apply step_keeps_tracked. }
  split; [exact H|]. split.
  - now apply unsync_drops_own_callbacks.
  - destruct (dispose_as_unsync w) as (-> & _).
    now apply unsync_drops_own_callbacks.
Qed.

Lemma same_listeners_match (w w' : World) :
  _synced (this w') = _synced (this w) ->
  _syncedStart (this w') = _syncedStart (this w) ->
  _syncedStop (this w') = _syncedStop (this w) ->
  Transport._events (transport (context w')) =
    Transport._events (transport (context w)) ->
  listeners_match_sync w -> listeners_match_sync w'.
Proof.
  unfold listeners_match_sync, own_listeners, bridge_listeners.
  intros -> -> -> ->. auto.
Qed.

Lemma sync_listeners_match (w : World) :
  listeners_match_sync w -> listeners_match_sync (sync w).
Proof.
  unfold listeners_match_sync, sync.
  destruct (_synced (this w)) eqn:Hs; simpl; [rewrite Hs; auto|].
  intros H. unfold own_listeners in *. simpl.
  rewrite !filter_app, H. reflexivity.
Qed.

Lemma unsync_listeners_match (w : World) :
  listeners_match_sync w -> listeners_match_sync (unsync w).
Proof.
  unfold listeners_match_sync. intros H.
  rewrite unsync_unfold.
  cbn [this context with_this with_timeline with_transport set_state
       set_synced set_scheduled set_transport _synced transport].
  match goal with
  | |- own_listeners (clear_all ?ids ?T) = _ =>
      unfold own_listeners;
      destruct (clear_all_frame ids T) as (-> & _)
  end.
  destruct (_synced (this w)); [|exact H].
  apply filter_none. apply Forall_forall. intros p Hp.
  apply In_off_bridges in Hp as [Hp Hn].
  destruct (own_listener (snd p)) eqn:Hown; [|reflexivity].
  exfalso. apply Hn. rewrite <- H. apply filter_In. auto.
Qed.

Lemma dispose_listeners_match (w : World) :
  listeners_match_sync w -> listeners_match_sync (dispose w).
Proof.
  intros H. apply unsync_listeners_match in H.
  unfold listeners_match_sync in *.
  destruct (dispose_as_unsync w) as (-> & -> & _).
  assert (_synced (this (unsync w)) = false) as E
    by (rewrite unsync_unfold; reflexivity).
  rewrite E in H. exact H.
Qed.

Lemma step_listeners_match (s : Step) (w : World) :
  listeners_match_sync w -> listeners_match_sync (step s w).
Proof.
  destruct s as [tm o d|tm| |c' s' st'|ev tm o|cb tm]; simpl.
  - destruct (start_keeps_fields tm o d w) as (E1 & E2 & E3 & E4 & _).
    now apply same_listeners_match.
  - destruct (stop_keeps_fields tm w) as (E1 & E2 & E3 & E4 & _).
    now apply same_listeners_match.
  - apply sync_listeners_match.
  - apply same_listeners_match; reflexivity.
  - unfold emit.
    destruct (emit_frame (Transport.listeners ev (transport (context w)))
                tm o w) as [E1 E2].
    apply same_listeners_match; rewrite ?E1, ?E2; reflexivity.
  - destruct (run_callback_frame cb tm w) as [E1 E2].
    apply same_listeners_match; rewrite ?E1, ?E2; reflexivity.
Qed.

Lemma method_listeners_match (m : Method) (w w' : World) :
  call_method m w = Returns w' ->
  listeners_match_sync w -> listeners_match_sync w'.
Proof.
  destruct m as [tm o d|tm| | |]; simpl; intros Hm H;
    inversion Hm; subst; clear Hm.
  - apply (step_listeners_match (do_start tm o d)). exact H.
  - apply (step_listeners_match (do_stop tm)). exact H.
  - now apply sync_listeners_match.
  - now apply unsync_listeners_match.
  - now apply dispose_listeners_match.
Qed.

(** Listeners never pile up.  Take a new instance on a Transport that holds
    no bridge closure yet.  Whatever the program does with it, however
    often it calls [sync()] and [unsync()], the bridge closures on the
    Transport are exactly the five listeners of the instance, each once,
    while it is synced, and none while it is not; so each announcement of
    [start] by the Transport runs the sync-start bridge once on a synced
    instance and not at all otherwise. *)
Theorem listeners_never_pile_up
    (m : bool) (f : Fn) (c0 : Context) (w : World) :
  own_listeners (transport c0) = [] ->
  evolves (new_World m f c0) w ->
  listeners_match_sync w /\
  List.length (own_listeners (transport (context w))) =
    (if _synced (this w) then 5%nat else 0%nat) /\
  filter own_listener
    (Transport.listeners "start" (transport (context w))) =
    (if _synced (this w) then [_syncedStart (this w)] else []).
Proof.
  intros H0 Hev.
  assert (listeners_match_sync w) as H.
  { induction Hev as [|w w' mth _ IH Hm|w s _ IH].
    - exact H0.
    - now apply (method_listeners_match mth w w').
    - now apply step_listeners_match. }
  assert (reachable w) as Hr
    by (eapply evolves_reachable; [constructor|exact Hev]).
  split; [exact H|]. unfold listeners_match_sync in H. split.
  - rewrite H. destruct (_synced (this w)); reflexivity.
  - assert (filter own_listener
              (Transport.listeners "start" (transport (context w))) =
            Transport.listeners "start"
              (Transport.mkTransport 0 Transport.Stopped
                 (own_listeners (transport (context w))) [] 0)) as E.
    { unfold Transport.listeners, own_listeners. simpl.
      induction (Transport._events (transport (context w))) as [|p l IH];
        simpl; [reflexivity|].
      destruct (String.eqb (fst p) "start") eqn:E1;
        destruct (own_listener (snd p)) eqn:E2; simpl;
        rewrite ?E1, ?E2; simpl; rewrite IH; reflexivity. }
    rewrite E, H.
    destruct (_synced (this w)) eqn:Hs; [|reflexivity].
    destruct (synced_bridges_are_closures w Hr Hs) as (k & Ek & Ek').
    unfold bridge_listeners. rewrite Ek, Ek'. reflexivity.
Qed.

(** ** What a synced instance defers *)

(** Called on a synced instance, [stop] invokes nothing: it registers one
    callback with the Transport at the effective time, under the
    Transport's next identifier, and tracks that identifier.  [start] does
    the same when the Timeline answers [stopped] at the effective time; the
    callback carries the offset and the duration as they were given.  Run
    by the Transport at rendering time [r], the callbacks invoke
    [_stop(r)] and [_start(r, offset, duration)]. *)
Theorem synced_calls_are_deferred
    (w : World) (tm offset duration : option Time) :
  _synced (this w) = true ->
  let t := computedTime tm w in
  let T := transport (context w) in
  let i := Transport._eventID T in
  (invoked (stop tm w) = invoked w /\
   Transport._timeline (transport (context (stop tm w))) =
     Transport._timeline T ++ [Transport.mkTransportEvent i StopCallback t] /\
   _scheduled (this (stop tm w)) = _scheduled (this w) ++ [i])
  /\ (getValueAtTime (_state (this w)) t = stopped ->
      Transport._timeline (transport (context (start tm offset duration w))) =
        Transport._timeline T ++
        [Transport.mkTransportEvent i (StartCallback offset duration) t] /\
      _scheduled (this (start tm offset duration w)) =
        _scheduled (this w) ++ [i])
  /\ (forall r x,
        invoked (run_callback StopCallback r x) =
          invoked x ++ [call_stop r] /\
        invoked (run_callback (StartCallback offset duration) r x) =
          invoked x ++ [call_start r offset duration]).
Proof.
  intros Hs t T i. split; [|split].
  - unfold stop. cbv zeta. fold t. rewrite Hs. simpl. repeat split.
  - intros Hst.
    destruct (start_synced_stopped tm offset duration w Hs Hst) as [E1 E2].
    rewrite E1, E2. split; reflexivity.
  - intros r x. split; reflexivity.
Qed.

(** ** The state getter follows the schedule *)

Lemma start_then_stop_state
    (w : World) (c1 : Context) (time0 time1 offset duration : option Time) :
  _synced (this w) = false ->
  Forall (fun e => StateTimeline.state e = stopped)
    (_timeline (_state (this w))) ->
  let a := Math_max (toSeconds (context w) time0) (currentTime (context w)) in
  let b := Math_max (toSeconds c1 time1) (currentTime c1) in
  let w' := stop time1 (set_context c1 (start time0 offset duration w)) in
  _synced (this w') = false /\
  _state (this w') =
    setStateAtTime stopped b
      (cancel b (setStateAtTime started a (_state (this w)))).
Proof.
  intros Hs HQ a b w'.
  assert (start time0 offset duration w =
          invoke (call_start a offset duration)
            (with_timeline (setStateAtTime started a) w)) as Hstart.
  { unfold start. rewrite computedTime_unsynced by exact Hs. fold a.
    rewrite getValueAtTime_all_stopped by exact HQ.
    simpl. rewrite Hs. reflexivity. }
  set (x := set_context c1 (start time0 offset duration w)) in *.
  assert (_synced (this x) = false) as Hx.
  { unfold x. cbn [this set_context].
    destruct (start_keeps_fields time0 offset duration w) as (-> & _).
    exact Hs. }
  assert (computedTime time1 x = b) as Eb
    by (rewrite computedTime_unsynced by exact Hx; reflexivity).
  split.
  - unfold w'. destruct (stop_keeps_fields time1 x) as (-> & _). exact Hx.
  - unfold w'. rewrite stop_timeline, Eb. unfold x. rewrite Hstart.
    reflexivity.
Qed.

(** On an instance that is not synced and holds nothing but [stopped]
    events earlier than [t0], after [start(t0)] and [stop(t1)] with
    [t0 < t1] the [state] getter follows the rendering clock with the
    look-ahead added: it reads [stopped] while [now()] is before [t0],
    [started] from [t0] up to but excluding [t1], and [stopped] from [t1]
    on. *)
Theorem state_follows_schedule
    (w : World) (c1 c : Context) (time0 time1 offset duration : option Time)
    (t0 t1 : Q) :
  _synced (this w) = false ->
  toSeconds (context w) time0 = t0 ->
  toSeconds c1 time1 = t1 ->
  currentTime (context w) <= t0 ->
  currentTime c1 <= t1 ->
  t0 < t1 ->
  (2 <= memory (_state (this w)))%nat ->
  Forall (fun e => StateTimeline.time e < t0 /\ StateTimeline.state e = stopped)
    (_timeline (_state (this w))) ->
  let w' :=
    set_context c
      (stop time1 (set_context c1 (start time0 offset duration w))) in
  (currentTime c + lookAhead c < t0 -> state w' = stopped) /\
  (t0 <= currentTime c + lookAhead c -> currentTime c + lookAhead c < t1 ->
   state w' = started) /\
  (t1 <= currentTime c + lookAhead c -> state w' = stopped).
Proof.
  intros Hs E0 E1 Hc0 Hc1 Hlt Hmem HQ w'.
  destruct (start_then_stop_state w c1 time0 time1 offset duration Hs)
    as [Hs' Etl].
  { eapply Forall_impl; [|exact HQ]. simpl. tauto. }
  rewrite E0, E1 in Etl.
  pose proof (Math_max_clamped t0 (currentTime (context w)) Hc0) as Ea.
  pose proof (Math_max_clamped t1 (currentTime c1) Hc1) as Eb.
  set (a := Math_max t0 (currentTime (context w))) in *.
  set (b := Math_max t1 (currentTime c1)) in *.
  assert (Forall (fun e => StateTimeline.time e < a /\
                           StateTimeline.state e = stopped)
            (_timeline (_state (this w)))) as HQa.
  { eapply Forall_impl; [|exact HQ]. simpl. intros e [? ?].
    split; [lra|auto]. }
  assert (state w' =
          getValueAtTime
            (setStateAtTime stopped b
               (cancel b (setStateAtTime started a (_state (this w)))))
            (currentTime c + lookAhead c)) as Est.
  { unfold state, w'. cbn [this set_context context]. rewrite Hs', Etl.
    reflexivity. }
  rewrite Est.
  destruct (timeline_started_then_stopped (_state (this w)) a b
              (currentTime c + lookAhead c) HQa) as (H1 & H2 & H3);
    [lra|exact Hmem|].
  repeat split; intros.
  - apply H1. lra.
  - apply H2; lra.
  - apply H3. lra.
Qed.

(** ** A sync/unsync cycle and the Transport *)

Lemma filter_nil_none {A : Type} (p : A -> bool) (l : list A) :
  filter p l = [] -> Forall (fun x => p x = false) l.
Proof.
  induction l as [|x l IH]; simpl; [constructor|].
  destruct (p x) eqn:E; [discriminate|]. intros H. constructor; auto.
Qed.

Lemma off_keeps_foreign (event : string) (f : Fn) (l : list (string * Fn)) :
  own_listener f = true ->
  Forall (fun p => own_listener (snd p) = false) l ->
  filter (fun p => negb (String.eqb (fst p) event && Fn_eqb (snd p) f)) l = l.
Proof.
  intros Hf. induction 1 as [|p l Hp _ IH]; simpl; [reflexivity|].
  destruct (Fn_eqb (snd p) f) eqn:E.
  - apply Fn_eqb_eq in E. congruence.
  - rewrite andb_false_r. simpl. now rewrite IH.
Qed.

Lemma events_on (event : string) (f : Fn) (T : Transport.t) :
  Transport._events (Transport.on event f T) =
  Transport._events T ++ [(event, f)].
Proof. reflexivity. Qed.

Lemma events_off (event : string) (f : Fn) (T : Transport.t) :
  Transport._events (Transport.off event f T) =
  filter (fun p => negb (String.eqb (fst p) event && Fn_eqb (snd p) f))
    (Transport._events T).
Proof. reflexivity. Qed.

Lemma off_on_bridges (k : nat) (l : list (string * Fn)) (s : Source)
    (T : Transport.t) :
  Forall (fun p => own_listener (snd p) = false) l ->
  Transport._events T = l ->
  Transport._events
    (off_bridges
       (set_bridges (SyncedStartFn k) (SyncedStopFn (S k)) s)
       (Transport.on "loopEnd" (SyncedStopFn (S k))
       (Transport.on "pause" (SyncedStopFn (S k))
       (Transport.on "stop" (SyncedStopFn (S k))
       (Transport.on "loopStart" (SyncedStartFn k)
       (Transport.on "start" (SyncedStartFn k) T)))))) = l.
Proof.
  intros HL El. unfold off_bridges.
  cbn [_syncedStart _syncedStop set_bridges].
  rewrite !events_off, !events_on.
  rewrite El, <- !app_assoc. cbn [app].
  rewrite filter_app,
    (off_keeps_foreign "stop" (SyncedStopFn (S k)) l eq_refl HL).
  cbn [filter fst snd String.eqb Ascii.eqb Bool.eqb Fn_eqb andb negb].
  rewrite !Nat.eqb_refl. cbn [andb negb].
  rewrite filter_app,
    (off_keeps_foreign "pause" (SyncedStopFn (S k)) l eq_refl HL).
  cbn [filter fst snd String.eqb Ascii.eqb Bool.eqb Fn_eqb andb negb].
  rewrite !Nat.eqb_refl. cbn [andb negb].
  rewrite filter_app,
    (off_keeps_foreign "loopEnd" (SyncedStopFn (S k)) l eq_refl HL).
  cbn [filter fst snd String.eqb Ascii.eqb Bool.eqb Fn_eqb andb negb].
  rewrite !Nat.eqb_refl. cbn [andb negb].
  rewrite filter_app,
    (off_keeps_foreign "start" (SyncedStartFn k) l eq_refl HL).
  cbn [filter fst snd String.eqb Ascii.eqb Bool.eqb Fn_eqb andb negb].
  rewrite !Nat.eqb_refl. cbn [andb negb].
  rewrite filter_app,
    (off_keeps_foreign "loopStart" (SyncedStartFn k) l eq_refl HL).
  cbn [filter fst snd String.eqb Ascii.eqb Bool.eqb Fn_eqb andb negb].
  rewrite !Nat.eqb_refl. cbn [andb negb filter].
  apply app_nil_r.
Qed.

(** A sync/unsync cycle leaves the shared Transport as it found it.  Take
    a new instance on a Transport that holds no bridge closure; at any
    point where the instance is not synced, [sync()] followed by
    [unsync()] gives back the very context it started from: the listeners
    of other parties, their order, and every callback are untouched. *)
Theorem sync_unsync_restores_transport
    (m : bool) (f : Fn) (c0 : Context) (w : World) :
  own_listeners (transport c0) = [] ->
  evolves (new_World m f c0) w ->
  _synced (this w) = false ->
  context (unsync (sync w)) = context w /\
  invoked (unsync (sync w)) = invoked w.
Proof.
  intros H0 Hev Hs.
  assert (reachable w) as Hr
    by (eapply evolves_reachable; [constructor|exact Hev]).
  pose proof (not_synced_tracks_nothing w Hr Hs) as Hn.
  assert (listeners_match_sync w) as HL.
  { clear Hs Hn Hr. induction Hev as [|w w' mth _ IH Hm|w s _ IH].
    - exact H0.
    - now apply (method_listeners_match mth w w').
    - now apply step_listeners_match. }
  unfold listeners_match_sync in HL. rewrite Hs in HL.
  apply filter_nil_none in HL.
  split; [|rewrite unsync_unfold; unfold sync; rewrite Hs; reflexivity].
  rewrite unsync_unfold. unfold sync. rewrite Hs.
  cbn [negb this context with_this with_timeline with_transport set_state
       set_synced set_scheduled set_bridges set_transport _synced
       _scheduled transport _syncedStart _syncedStop
       currentTime lookAhead sampleRate].
  rewrite Hn. unfold clear_all. cbn [fold_left].
  match goal with
  | |- set_transport ?T ?c = _ =>
      assert (Transport._events T =
              Transport._events (transport (context w))) as Eev
        by (apply off_on_bridges; [exact HL|reflexivity]);
      assert (Transport.seconds T = Transport.seconds (transport (context w))
              /\ Transport.state T = Transport.state (transport (context w))
              /\ Transport._timeline T =
                 Transport._timeline (transport (context w))
              /\ Transport._eventID T =
                 Transport._eventID (transport (context w)))
        as (E1 & E2 & E3 & E4) by (repeat split);
      set (T' := T) in *; clearbody T'
  end.
  destruct T' as [sec' st' ev' tl' eid']. simpl in Eev, E1, E2, E3, E4.
  subst.
  destruct (context w) as [ct la sr [sec st ev tl eid]]. reflexivity.
Qed.

End WithCollaborators.

(** * The properties on concrete instances

    The instances below are built from [new_World] in the offline context
    (rendering clock at 0, Transport stopped at 0) with the conversion
    [zero_toSeconds] and the Transport position [identity_getSecondsAtTime]. *)

(** C1 on the scenario of the specification: an instance that is not
    synced starts at 1 s and stops at 3 s; the Timeline answers [stopped]
    at 0.5 s, [started] at 2 s and [stopped] at 3.5 s. *)
Lemma start_then_stop_timeline_witness :
  let w' :=
    stop zero_toSeconds (Some (TNumber 3))
      (set_context offline_Context
         (start zero_toSeconds identity_getSecondsAtTime
            (Some (TNumber 1)) None None
            (new_World false noOp offline_Context))) in
  StateTimeline.getValueAtTime (_state (this w')) (1 # 2) = stopped /\
  StateTimeline.getValueAtTime (_state (this w')) 2 = started /\
  StateTimeline.getValueAtTime (_state (this w')) (7 # 2) = stopped.
Proof.
  intros w'.
  assert (forall tm,
    (tm < 1 -> StateTimeline.getValueAtTime (_state (this w')) tm = stopped) /\
    (1 <= tm -> tm < 3 ->
     StateTimeline.getValueAtTime (_state (this w')) tm = started) /\
    (3 <= tm -> StateTimeline.getValueAtTime (_state (this w')) tm = stopped))
    as H.
  { intros tm.
    apply (start_then_stop_timeline zero_toSeconds identity_getSecondsAtTime
             (new_World false noOp offline_Context) offline_Context
             (Some (TNumber 1)) (Some (TNumber 3)) None None 1 3 tm);
      try reflexivity; simpl; try lra; try lia. constructor. }
  split; [|split].
  - destruct (H (1 # 2)) as (H1 & _ & _). apply H1. lra.
  - destruct (H 2) as (_ & H2 & _). apply H2; lra.
  - destruct (H (7 # 2)) as (_ & _ & H3). apply H3. lra.
Defined.

(** C2 as stated fails: on a new instance [start(1)] then [start(2)] takes
    the restart branch (the Timeline answers [started] at 2, [_start] is
    invoked once and [restart] once) and leaves two [started] entries in
    the Timeline, the one at 1 and the one at 2. *)
Lemma second_start_leaves_two_started_entries :
  let w1 :=
    start zero_toSeconds identity_getSecondsAtTime (Some (TNumber 1)) None None
      (new_World false noOp offline_Context) in
  let w2 :=
    start zero_toSeconds identity_getSecondsAtTime (Some (TNumber 2)) None None
      w1 in
  StateTimeline.getValueAtTime (_state (this w1))
    (computedTime zero_toSeconds (Some (TNumber 2)) w1) = started /\
  invoked w2 = [call_start 1 None None; call_restart 2 None None] /\
  started_entries (_state (this w2)) =
    [StateTimeline.mkEvent 1 started None None None;
     StateTimeline.mkEvent 2 started None None None] /\
  List.length (started_entries (_state (this w2))) = 2%nat.
Proof. repeat split. Qed.

(** C2 (amended) on that instance: the second [start] is a restart at 2;
    the only event at or after 2 is the [started] event at 2. *)
Lemma start_while_started_restarts_witness :
  let w1 :=
    start zero_toSeconds identity_getSecondsAtTime (Some (TNumber 1)) None None
      (new_World false noOp offline_Context) in
  let w2 :=
    start zero_toSeconds identity_getSecondsAtTime (Some (TNumber 2)) None None
      w1 in
  invoked w2 = invoked w1 ++ [call_restart 2 None None] /\
  at_or_after 2 (_state (this w2)) =
    [StateTimeline.mkEvent 2 started None None None].
Proof.
  intros w1 w2.
  destruct (start_while_started_restarts zero_toSeconds
              identity_getSecondsAtTime w1 (Some (TNumber 2)) None None)
    as (_ & H1 & _ & _ & H2 & _).
  - reflexivity.
  - simpl. lia.
  - split; [exact H1|exact H2].
Defined.

(** C3 on an instance whose rendering clock is at 5: a start requested for
    1 is moved to 5 and [_start] is invoked with 5. *)
Lemma effective_time_is_clamped_witness :
  let c := mkContext 5 0 44100 idle_Transport in
  let w := new_World false noOp c in
  computedTime zero_toSeconds (Some (TNumber 1)) w = 5 /\
  invoked (start zero_toSeconds identity_getSecondsAtTime
             (Some (TNumber 1)) None None w) = [call_start 5 None None].
Proof.
  intros c w.
  destruct (effective_time_is_clamped zero_toSeconds identity_getSecondsAtTime
              w (TNumber 1) None None) as (_ & _ & _ & H & _).
  split; [apply H; simpl; lra|reflexivity].
Defined.

(** C4 as stated fails in two places.  A synced instance started at 0 with
    the duration ["0"] records a duration of 0 seconds; fired with offset
    0.5 the bridge finds that event, whose recorded duration is 0, and
    invokes [_start] without a duration, not with [0 - 0.5].  And with the
    rendering clock at 0.1, [sync()] then [start(0)] records the event at
    0.1, so the Transport starting with offset 0.5 invokes [_start] with
    offset 0.4. *)
Lemma syncedStart_bridge_drops_zero_duration :
  (let w :=
     start zero_toSeconds identity_getSecondsAtTime
       (Some (TNumber 0)) None (Some (TString "0"))
       (sync (new_World false noOp offline_Context)) in
   let e := StateTimeline.mkEvent 0 started (Some 0) (Some 0) None in
   StateTimeline.get (_state (this w)) (1 # 2) = Some e /\
   invoked (syncedStart_body zero_toSeconds 0 (1 # 2) w) =
     [call_start 0 (Some (TNumber (0 + ((1 # 2) - 0)))) None] /\
   claimed_syncedStart_invocation zero_toSeconds (context w) 0 (1 # 2) e =
     call_start 0 (Some (TNumber (0 + ((1 # 2) - 0))))
       (Some (TNumber (0 - ((1 # 2) - 0)))) /\
   invoked (syncedStart_body zero_toSeconds 0 (1 # 2) w) <>
     invoked w ++
     [claimed_syncedStart_invocation zero_toSeconds (context w) 0 (1 # 2) e])
  /\
  (let c := mkContext (1 # 10) 0 44100 idle_Transport in
   let w' :=
     emit zero_toSeconds identity_getSecondsAtTime "start" 0 (1 # 2)
       (start zero_toSeconds identity_getSecondsAtTime
          (Some (TNumber 0)) None None (sync (new_World false noOp c))) in
   exists q,
     invoked w' = [call_start 0 (Some (TNumber q)) None] /\
     q == 4 # 10 /\ ~ q == 1 # 2).
Proof.
  split.
  - repeat split. discriminate.
  - eexists. split; [reflexivity|]. split; [reflexivity|discriminate].
Qed.

(** C4 (amended) on the scenario of the specification, in the offline
    context: [sync()], [start(0)], then the Transport announces [start]
    with offset 0.5; the last invocation is [_start] with offset 0.5. *)
Lemma syncedStart_bridge_replays_witness :
  let w' :=
    emit zero_toSeconds identity_getSecondsAtTime "start" 0 (1 # 2)
      (start zero_toSeconds identity_getSecondsAtTime
         (Some (TNumber 0)) None None
         (sync (new_World false noOp offline_Context))) in
  exists before q,
    invoked w' = before ++ [call_start 0 (Some (TNumber q)) None] /\
    q == 1 # 2.
Proof.
  destruct (syncedStart_bridge_replays zero_toSeconds
              identity_getSecondsAtTime
              (new_World false noOp offline_Context) 0 (1 # 2))
    as (_ & _ & _ & _ & H).
  apply (H false noOp offline_Context). reflexivity.
Defined.

(** C5 on a synced instance playing from 0: the Transport stopping at
    rendering time 1 makes the bridge invoke [_stop(1)]. *)
Lemma syncedStop_bridge_stops_witness :
  let w :=
    start zero_toSeconds identity_getSecondsAtTime (Some (TNumber 0)) None None
      (sync (new_World false noOp offline_Context)) in
  invoked (syncedStop_body identity_getSecondsAtTime 1 w) =
  invoked w ++ [call_stop 1].
Proof.
  intros w.
  destruct (syncedStop_bridge_stops zero_toSeconds identity_getSecondsAtTime
              w 1) as (H & _).
  rewrite H; reflexivity.
Defined.

(** C6 on a synced instance whose Transport is stopped: [stopped], although
    the Timeline answers [started] at the Transport's position. *)
Lemma state_getter_cases_witness :
  let w :=
    start zero_toSeconds identity_getSecondsAtTime (Some (TNumber 0)) None None
      (sync (new_World false noOp offline_Context)) in
  StateTimeline.getValueAtTime (_state (this w))
    (Transport.seconds (transport (context w))) = started /\
  state w = stopped.
Proof.
  intros w. split; [reflexivity|].
  destruct (state_getter_cases w) as (_ & H & _).
  apply H; [reflexivity|discriminate].
Defined.

(** C7 on a synced instance that was started at 0 and stopped at 3: after
    [unsync()] the two tracked identifiers are cleared, the Transport holds
    no listener, the Timeline answers [stopped] everywhere. *)
Lemma unsync_after_sync_resets_witness :
  let w :=
    run zero_toSeconds identity_getSecondsAtTime
      [do_start (Some (TNumber 0)) None None; do_stop (Some (TNumber 3))]
      (sync (new_World false noOp offline_Context)) in
  _scheduled (this w) = [0%nat; 1%nat] /\
  Transport.registered 0 (transport (context w)) = true /\
  Transport.registered 0 (transport (context (unsync w))) = false /\
  Transport.registered 1 (transport (context (unsync w))) = false /\
  ~ In ("start"%string, SyncedStartFn 0)
       (Transport._events (transport (context (unsync w)))) /\
  (forall tm,
     StateTimeline.getValueAtTime (_state (this (unsync w))) tm = stopped) /\
  _synced (this (unsync w)) = false.
Proof.
  intros w.
  destruct (unsync_after_sync_resets zero_toSeconds identity_getSecondsAtTime
              false noOp offline_Context
              [do_start (Some (TNumber 0)) None None;
               do_stop (Some (TNumber 3))])
    as (_ & H1 & _ & H2 & _ & _ & H3 & H4).
  - simpl. lra.
  - simpl. lra.
  - repeat constructor.
  - fold w in H1, H2, H3, H4.
    split; [reflexivity|]. split; [reflexivity|].
    split; [apply H2; simpl; auto|]. split; [apply H2; simpl; auto|].
    split; [apply H1; simpl; auto|]. split; [exact H3|exact H4].
Defined.

(** C8 as stated fails for [unsync()]: an instance that is not synced and
    was started at 1 holds a [started] event; [unsync()] removes it, and
    with the rendering clock at 2 the [state] getter turns from [started]
    to [stopped]. *)
Lemma unsync_when_not_synced_resets_timeline :
  let w :=
    move_clocks 2 0 Transport.Stopped
      (start zero_toSeconds identity_getSecondsAtTime
         (Some (TNumber 1)) None None
         (new_World false noOp offline_Context)) in
  _synced (this w) = false /\
  StateTimeline._timeline (_state (this w)) =
    [StateTimeline.mkEvent 1 started None None None] /\
  StateTimeline._timeline (_state (this (unsync w))) = [] /\
  state w = started /\
  state (unsync w) = stopped /\
  unsync w <> w.
Proof. repeat split. discriminate. Qed.

(** C8 (amended) on concrete instances: a second [sync()] and a second
    [unsync()] change nothing. *)
Lemma redundant_sync_unsync_witness :
  let w := sync (new_World false noOp offline_Context) in
  sync w = w /\ unsync (unsync w) = unsync w.
Proof.
  intros w.
  destruct (redundant_sync_unsync zero_toSeconds identity_getSecondsAtTime w)
    as (H1 & _ & H2).
  split; [apply H1; reflexivity|exact H2].
Defined.

(** C9 as stated fails: on a disposed instance [sync()] is not rejected;
    it returns and installs five listeners on the Transport, which held
    none after the disposal. *)
Lemma sync_after_dispose_is_not_rejected :
  let w := dispose (sync (new_World false noOp offline_Context)) in
  Transport._events (transport (context w)) = [] /\
  (forall message,
     call_method zero_toSeconds identity_getSecondsAtTime m_sync w <>
     Throws message) /\
  call_method zero_toSeconds identity_getSecondsAtTime m_sync w =
    Returns (sync w) /\
  _synced (this (sync w)) = true /\
  Transport._events (transport (context (sync w))) =
    [("start"%string, SyncedStartFn 2); ("loopStart"%string, SyncedStartFn 2);
     ("stop"%string, SyncedStopFn 3); ("pause"%string, SyncedStopFn 3);
     ("loopEnd"%string, SyncedStopFn 3)].
Proof. repeat split. intros message. discriminate. Qed.

(** C9 (amended) on a synced instance with two tracked identifiers. *)
Lemma dispose_clears_registrations_witness :
  let w :=
    run zero_toSeconds identity_getSecondsAtTime
      [do_start (Some (TNumber 0)) None None; do_stop (Some (TNumber 3))]
      (sync (new_World false noOp offline_Context)) in
  _scheduled (this w) = [0%nat; 1%nat] /\
  Transport.registered 0 (transport (context (dispose w))) = false /\
  Transport.registered 1 (transport (context (dispose w))) = false /\
  ~ In ("stop"%string, SyncedStopFn 1)
       (Transport._events (transport (context (dispose w)))) /\
  _scheduled (this (dispose w)) = [].
Proof.
  intros w.
  destruct (dispose_clears_registrations zero_toSeconds
              identity_getSecondsAtTime w)
    as (_ & H1 & H2 & H3 & _).
  split; [reflexivity|].
  split; [apply H2; simpl; auto|]. split; [apply H2; simpl; auto|].
  split; [apply H3; [reflexivity|simpl; auto]|exact H1].
Defined.

(** C10 on a synced instance started at 1 and then stopped at 0.5: the
    Timeline keeps only the [stopped] event, the [started] event at 1 is
    cancelled, and the Transport still holds the callback that will invoke
    [_start] at 1. *)
Lemma registrations_outlive_cancellation_witness :
  let w :=
    start zero_toSeconds identity_getSecondsAtTime (Some (TNumber 1)) None None
      (sync (new_World false noOp offline_Context)) in
  let w' := stop zero_toSeconds (Some (TNumber (1 # 2))) w in
  StateTimeline._timeline (_state (this w')) =
    [StateTimeline.mkEvent (1 # 2) stopped None None None] /\
  at_or_after (1 # 2) (_state (this w')) =
    [StateTimeline.mkEvent (1 # 2) stopped None None None] /\
  In (Transport.mkTransportEvent 0 (StartCallback None None) 1)
     (Transport._timeline (transport (context w'))) /\
  In 0%nat (_scheduled (this w')).
Proof.
  intros w w'.
  destruct (registrations_outlive_cancellation zero_toSeconds
              identity_getSecondsAtTime) as (_ & H & _).
  destruct (H w (Some (TNumber (1 # 2)))) as (H1 & H2 & H3).
  - reflexivity.
  - simpl. lia.
  - split; [reflexivity|]. split; [exact H1|].
    split; [apply H3|apply H2]; simpl; auto.
Defined.

(** * The further properties on concrete instances *)

(** A new instance started at 1 and stopped at 3 without being synced: the
    Transport is as it was and [_start(1)], [_stop(3)] were invoked. *)
Lemma not_synced_calls_bypass_transport_witness :
  let w0 := new_World false noOp offline_Context in
  let w1 :=
    start zero_toSeconds identity_getSecondsAtTime
      (Some (TNumber 1)) None None w0 in
  context w1 = context w0 /\
  invoked (stop zero_toSeconds (Some (TNumber 3)) w1) =
    invoked w1 ++ [call_stop 3].
Proof.
  intros w0 w1.
  destruct (not_synced_calls_bypass_transport zero_toSeconds
              identity_getSecondsAtTime w0 (Some (TNumber 1)) None None
              eq_refl) as ((H1 & _) & _).
  destruct (not_synced_calls_bypass_transport zero_toSeconds
              identity_getSecondsAtTime w1 (Some (TNumber 3)) None None
              eq_refl) as (_ & _ & _ & H2).
  split; [exact H1|exact H2].
Defined.


(** A synced instance started at 1: [stop(1/2)] leaves the Timeline
    [stopped] at 2, although a start was scheduled at 1. *)
Lemma last_call_wins_witness :
  let w :=
    start zero_toSeconds identity_getSecondsAtTime (Some (TNumber 1)) None None
      (sync (new_World false noOp offline_Context)) in
  StateTimeline.getValueAtTime (_state (this w)) 2 = started /\
  StateTimeline.getValueAtTime
    (_state (this (stop zero_toSeconds (Some (TNumber (1 # 2))) w))) 2
  = stopped.
Proof.
  intros w. split; [reflexivity|].
  destruct (last_call_wins zero_toSeconds identity_getSecondsAtTime w
              (Some (TNumber (1 # 2))) None None) as (H & _).
  - simpl. lia.
  - apply H. vm_compute. intro C. discriminate C.
Defined.



(** An instance that was synced, started, unsynced, synced again and
    stopped: after [unsync()] the Transport holds no callback of it. *)
Lemma no_callback_dangles_witness :
  let w :=
    stop zero_toSeconds (Some (TNumber 3))
      (sync
         (unsync
            (start zero_toSeconds identity_getSecondsAtTime
               (Some (TNumber 1)) None None
               (sync (new_World false noOp offline_Context))))) in
  _scheduled (this w) = [1%nat] /\
  own_callbacks (transport (context (unsync w))) = [].
Proof.
  intros w. split; [reflexivity|].
  destruct (no_callback_dangles zero_toSeconds identity_getSecondsAtTime
              false noOp offline_Context w) as (_ & H & _).
  - reflexivity.
  - unfold w.
    eapply evolves_method with (m := m_stop (Some (TNumber 3)));
      [|reflexivity].
    eapply evolves_method with (m := m_sync); [|reflexivity].
    eapply evolves_method with (m := m_unsync); [|reflexivity].
    eapply evolves_method with (m := m_start (Some (TNumber 1)) None None);
      [|reflexivity].
    eapply evolves_method with (m := m_sync); [|reflexivity].
    apply evolves_refl.
  - exact H.
Defined.

(** The same instance: synced twice in all, it has five listeners on the
    Transport, not ten. *)
Lemma listeners_never_pile_up_witness :
  let w :=
    sync
      (sync
         (unsync
            (sync (new_World false noOp offline_Context)))) in
  List.length (own_listeners (transport (context w))) = 5%nat.
Proof.
  intros w.
  destruct (listeners_never_pile_up zero_toSeconds identity_getSecondsAtTime
              false noOp offline_Context w) as (_ & H & _).
  - reflexivity.
  - unfold w.
    eapply evolves_method with (m := m_sync); [|reflexivity].
    eapply evolves_method with (m := m_sync); [|reflexivity].
    eapply evolves_method with (m := m_unsync); [|reflexivity].
    eapply evolves_method with (m := m_sync); [|reflexivity].
    apply evolves_refl.
  - exact H.
Defined.

(** A synced instance stopped at 3: nothing is invoked, the Transport
    holds the callback under identifier 0. *)
Lemma synced_calls_are_deferred_witness :
  let w := sync (new_World false noOp offline_Context) in
  invoked (stop zero_toSeconds (Some (TNumber 3)) w) = [] /\
  Transport._timeline
    (transport (context (stop zero_toSeconds (Some (TNumber 3)) w))) =
    [Transport.mkTransportEvent 0 StopCallback 3].
Proof.
  intros w.
  destruct (synced_calls_are_deferred zero_toSeconds identity_getSecondsAtTime
              w (Some (TNumber 3)) None None eq_refl)
    as ((H1 & H2 & _) & _).
  split; [exact H1|exact H2].
Defined.

(** The scenario of C1 read through the getter, with a look-ahead of 0.1 s:
    with the rendering clock at 0.95 the getter already reads [started]. *)
Lemma state_follows_schedule_witness :
  let c := mkContext (95 # 100) (1 # 10) 44100 idle_Transport in
  state
    (set_context c
       (stop zero_toSeconds (Some (TNumber 3))
          (set_context offline_Context
             (start zero_toSeconds identity_getSecondsAtTime
                (Some (TNumber 1)) None None
                (new_World false noOp offline_Context))))) = started.
Proof.
  intros c.
  destruct (state_follows_schedule zero_toSeconds identity_getSecondsAtTime
              (new_World false noOp offline_Context) offline_Context c
              (Some (TNumber 1)) (Some (TNumber 3)) None None 1 3)
    as (_ & H & _).
  - reflexivity.
  - reflexivity.
  - reflexivity.
  - simpl. lra.
  - simpl. lra.
  - lra.
  - simpl. lia.
  - constructor.
  - apply H; vm_compute; [intro C; discriminate C|reflexivity].
Defined.

(** The offline context with a listener of another party: after a
    sync/unsync cycle of a new instance the context is the same. *)
Lemma sync_unsync_restores_transport_witness :
  let T :=
    Transport.mkTransport 0 Transport.Stopped [("start"%string, OtherFn 7)]
      [Transport.mkTransportEvent 0 (OtherCallback 7) 2] 1 in
  let c := mkContext 0 0 44100 T in
  context (unsync (sync (new_World false noOp c))) = c.
Proof.
  intros T c.
  destruct (sync_unsync_restores_transport zero_toSeconds
              identity_getSecondsAtTime false noOp c
              (new_World false noOp c)) as (H & _).
  - reflexivity.
  - apply evolves_refl.
  - reflexivity.
  - exact H.
Defined.
